(** * files2knowledge: the batch conversion pipeline of
    [src/files2knowledge.py] ([OllamaClient.generate], [process_image],
    [process_pdf], [process_input_path]) as a shallow embedding.

    - A path is the list of its segments; [p / "x"] is [p ++ ["x"]].
    - The output side of the file system is a [gmap] from paths to the
      JSON records written there, plus the set of created directories.
    - Everything outside the program is an environment [env]: the kind of
      each input path ([is_file] / [is_dir]), the order in which pathlib's
      recursive glob visits directories and lists their entries, the wall
      clock formatted as ["%Y%m%d_%H%M%S"], pdf2image's page count, the
      temporary directory and the HTTP outcome of every POST.
    - Python exceptions are the [Err] branch of a state and error monad
      whose state survives the error: files flushed before an exception
      stay on disk. *)

From Stdlib Require Import Ascii ZArith.
From Stdlib Require Strings.String.
From stdpp Require Import base list gmap strings pretty.

(** stdpp makes [String.append] opaque to [simpl]; the proofs below
    compute with it. *)
Local Arguments Strings.String.append : simpl nomatch.

Local Open Scope Z_scope.
Local Open Scope nat_scope.

(* ------------------------------------------------------------------ *)
(** ** Strings: the parts of [str] and [pathlib] the code uses *)

Module Str.

(** Index of the last ['.'] of a string ([str.rfind('.')]). *)
Fixpoint rfind_dot_from (s : string) (i : nat) (acc : option nat) : option nat :=
  match s with
  | EmptyString => acc
  | String c s' =>
      rfind_dot_from s' (S i) (if ascii_dec c "."%char then Some i else acc)
  end.

Definition rfind_dot (s : string) : option nat := rfind_dot_from s 0 None.

(** [PurePath.suffix]: [name[i:]] when [0 < i < len(name) - 1], else [""]. *)
Definition suffix (nm : string) : string :=
  match rfind_dot nm with
  | Some i =>
      if (0 <? i) && (i <? Strings.String.length nm - 1)
      then Strings.String.substring i (Strings.String.length nm - i) nm else ""
  | None => ""
  end.

(** [PurePath.stem]: [name[:i]] under the same condition, else [name]. *)
Definition stem (nm : string) : string :=
  match rfind_dot nm with
  | Some i =>
      if (0 <? i) && (i <? Strings.String.length nm - 1)
      then Strings.String.substring 0 i nm else nm
  | None => nm
  end.

(** [str.lower] on ASCII letters. *)
Definition lower_char (c : ascii) : ascii :=
  let n := nat_of_ascii c in
  if (65 <=? n) && (n <=? 90) then ascii_of_nat (n + 32) else c.

Fixpoint lower (s : string) : string :=
  match s with
  | EmptyString => EmptyString
  | String c s' => String (lower_char c) (lower s')
  end.

(** [fnmatch] of ["*" + ext] against a name, case-sensitive as pathlib's
    glob is on POSIX: the name ends with [ext]. *)
Definition ends_with (ext nm : string) : bool :=
  (Strings.String.length ext <=? Strings.String.length nm) &&
  Strings.String.eqb (Strings.String.substring (Strings.String.length nm - Strings.String.length ext)
                        (Strings.String.length ext) nm) ext.

End Str.

(* ------------------------------------------------------------------ *)
(** ** Paths, records, outcomes *)

Abbreviation path := (list string).

(** [PurePath.name]: the last segment. *)
Definition name (p : path) : string := default "" (last p).

Inductive kind := File | Dir.

(** The JSON objects written by [json.dump]. [pages] is the Python dict
    [descriptions], kept in insertion order. *)
Inductive json :=
  | ImageRecord (filename timestamp description : string)
  | PageRecord (page : nat) (filename timestamp description : string)
  | CombinedRecord (filename timestamp : string) (total_pages : nat)
      (pages : list (string * string)).

#[global] Instance json_eq_dec : EqDecision json.
Proof. solve_decision. Defined.

(** The body of an HTTP response as [response.json()] sees it. *)
Inductive body :=
  | NotJson                              (* json() raises JSONDecodeError *)
  | JsonObject (response : option string) (* a dict; its "response" key *)
  | JsonOther.                           (* valid JSON, not a dict *)

(** What [requests.post] does: raise a transport error, or return a final
    response (redirects already followed). *)
Inductive outcome :=
  | TransportFailure
  | Response (status : Z) (b : body).

(** The exceptions that leave the functions. The code raises a plain
    [Exception] for a failed request; [InferenceError] is its name here. *)
Inductive error :=
  | NotFound             (* FileNotFoundError *)
  | InferenceError       (* Exception("Error calling Ollama API: ...") *)
  | RasterizationError   (* pdf2image failure or ImportError *)
  | OtherError.          (* anything else: AttributeError, IsADirectoryError,
                            Pillow's UnidentifiedImageError and OSError *)

Record env := {
  kind_of : path -> option kind;
  walk : path -> list (path * list (string * kind));
  now : nat -> string;
  rasterize : path -> option nat;
  tmpdir : path -> path;
  http : nat -> string -> path -> outcome;
  image_mode : path -> option string  (* [Image.open(p).mode]; [None]: Pillow
                                         cannot identify the file *)
}.

Record world := {
  files : gmap path json;
  dirs : gset path;
  ticks : nat;   (* clock reads so far *)
  calls : nat;   (* POST requests so far *)
  sidecars : gset path  (* the [_resized.jpg] copies [generate] left on disk *)
}.

Inductive result (A : Type) := Ok (a : A) | Err (e : error).
Arguments Ok {A} a.
Arguments Err {A} e.

(* ------------------------------------------------------------------ *)
(** ** A state and error monad *)

Definition M (A : Type) := world -> result A * world.

Definition ret {A} (a : A) : M A := fun w => (Ok a, w).
Definition raise {A} (e : error) : M A := fun w => (Err e, w).
Definition bind {A B} (m : M A) (f : A -> M B) : M B := fun w =>
  match m w with
  | (Ok a, w') => f a w'
  | (Err e, w') => (Err e, w')
  end.

Notation "'let!' x := m 'in' k" := (bind m (fun x => k))
  (at level 200, x name, m at level 100, k at level 200).

(** [open(p, "w")] and [json.dump]: taken to succeed (a full disk, a
    read-only directory or an over-long file name are outside the model). *)
Definition write (p : path) (j : json) : M unit := fun w =>
  (Ok tt, {| files := <[p := j]> (files w); dirs := dirs w;
             ticks := ticks w; calls := calls w; sidecars := sidecars w |}).

Definition mkdir (p : path) : M unit := fun w =>
  (Ok tt, {| files := files w; dirs := {[p]} ∪ dirs w;
             ticks := ticks w; calls := calls w; sidecars := sidecars w |}).

(** [datetime.datetime.now().strftime("%Y%m%d_%H%M%S")] *)
Definition read_clock (E : env) : M string := fun w =>
  (Ok (now E (ticks w)), {| files := files w; dirs := dirs w;
                            ticks := S (ticks w); calls := calls w;
                            sidecars := sidecars w |}).

Definition post (E : env) (prompt : string) (img : path) : M outcome := fun w =>
  (Ok (http E (calls w) prompt img),
   {| files := files w; dirs := dirs w; ticks := ticks w; calls := S (calls w);
      sidecars := sidecars w |}).

(** [img.save(resized_path)] *)
Definition save_sidecar (p : path) : M unit := fun w =>
  (Ok tt, {| files := files w; dirs := dirs w; ticks := ticks w; calls := calls w;
             sidecars := {[p]} ∪ sidecars w |}).

(** [with tempfile.TemporaryDirectory() as temp_dir]: the directory is
    created empty, every copy [generate] saves inside the block lies in
    it (the page images are there), and it is removed on every exit, so
    the set of copies left on disk is the one on entry. *)
Definition in_tempdir {A} (m : M A) : M A := fun w =>
  match m w with
  | (r, w') => (r, {| files := files w'; dirs := dirs w'; ticks := ticks w';
                      calls := calls w'; sidecars := sidecars w |})
  end.

(* ------------------------------------------------------------------ *)
(** ** [OllamaClient.generate] *)

(** [raise_for_status]: an [HTTPError] for 4xx and 5xx only. *)
Definition raises_for_status (status : Z) : bool :=
  ((400 <=? status) && (status <? 600))%Z.

(** The [try] block around the POST: every [requests.RequestException]
    (transport errors, [HTTPError], and [JSONDecodeError], a
    [RequestException] since requests 2.27) becomes the re-raised
    [Exception]; [.get] on a non-dict JSON value raises [AttributeError],
    which the [except] clause does not catch. *)
Definition request_result (o : outcome) : result string :=
  match o with
  | TransportFailure => Err InferenceError
  | Response status b =>
      if raises_for_status status then Err InferenceError else
      match b with
      | NotJson => Err InferenceError
      | JsonObject r => Ok (default "" r)
      | JsonOther => Err OtherError
      end
  end.

(** The modes Pillow's JPEG encoder writes; [img.save] of an image in
    any other mode (["P"] of most GIFs, ["RGBA"] of transparent PNGs,
    ["LA"], ["I;16"], ...) raises [OSError: cannot write mode ... as JPEG]
    and leaves no file behind. *)
Definition jpeg_saveable (mode : string) : bool :=
  existsb (String.eqb mode) ["1"; "L"; "RGB"; "RGBX"; "CMYK"; "YCbCr"].

(** [str(image_path) + "_resized.jpg"]: a sibling of the image. *)
Definition resized_path (image_path : path) : path :=
  removelast image_path ++ [name image_path +:+ "_resized.jpg"].

(** [present] is what the file system holds at [image_path]: [exists()]
    fails on [None]; [Image.open] on a directory raises. [mode] is the
    mode [Image.open] finds ([None]: [UnidentifiedImageError]); the
    resized copy is saved as JPEG next to the image before the POST. *)
Definition generate (E : env) (present : option kind) (mode : option string)
    (prompt : string) (image_path : path) : M string :=
  match present with
  | None => raise NotFound
  | Some Dir => raise OtherError
  | Some File =>
      match mode with
      | None => raise OtherError
      | Some m =>
          if jpeg_saveable m then
            let! _ := save_sidecar (resized_path image_path) in
            let! o := post E prompt image_path in
            match request_result o with
            | Ok d => ret d
            | Err e => raise e
            end
          else raise OtherError
      end
  end.

(* ------------------------------------------------------------------ *)
(** ** Output names *)

Definition image_output (output_dir : path) (stm ts : string) : path :=
  output_dir ++ [stm +:+ "_description_" +:+ ts +:+ ".json"].

Definition pdf_output_dir (output_dir : path) (stm ts : string) : path :=
  output_dir ++ [stm +:+ "_" +:+ ts].

Definition page_output (pdir : path) (page_num : nat) : path :=
  pdir ++ ["page_" +:+ pretty page_num +:+ "_description.json"].

Definition combined_output (pdir : path) (stm : string) : path :=
  pdir ++ [stm +:+ "_all_descriptions.json"].

(** [temp_dir / f"page_{i+1}.png"] *)
Definition page_image (E : env) (pdf_path : path) (page_num : nat) : path :=
  tmpdir E pdf_path ++ ["page_" +:+ pretty page_num +:+ ".png"].

(** [d[k] = v] on a Python dict kept as an insertion-ordered list. *)
Fixpoint dict_set (d : list (string * string)) (k v : string)
    : list (string * string) :=
  match d with
  | [] => [(k, v)]
  | (k', v') :: r =>
      if String.eqb k k' then (k, v) :: r else (k', v') :: dict_set r k v
  end.

(* ------------------------------------------------------------------ *)
(** ** [process_image] *)

Definition process_image (E : env) (image_path output_dir : path)
    (prompt : string) : M path :=
  let! description := generate E (kind_of E image_path) (image_mode E image_path)
                         prompt image_path in
  let! timestamp := read_clock E in
  let output_file := image_output output_dir (Str.stem (name image_path)) timestamp in
  let! _ := write output_file
              (ImageRecord (name image_path) timestamp description) in
  ret output_file.

(* ------------------------------------------------------------------ *)
(** ** [process_pdf] *)

(** The [for i, image_path in enumerate(image_paths)] loop; [page_num] is
    [i + 1], [output_files] and [descriptions] are its accumulators. The
    page images are the RGB images pdf2image returns, saved as PNG: they
    open in mode ["RGB"]. *)
Fixpoint process_pages (E : env) (pdf_path pdir : path) (timestamp prompt : string)
    (page_num : nat) (image_paths : list path)
    (output_files : list path) (descriptions : list (string * string))
    : M (list path * list (string * string)) :=
  match image_paths with
  | [] => ret (output_files, descriptions)
  | image_path :: rest =>
      let output_file := page_output pdir page_num in
      let! description := generate E (Some File) (Some "RGB") prompt image_path in
      let descriptions' := dict_set descriptions (pretty page_num) description in
      let! _ := write output_file
                  (PageRecord page_num (name pdf_path) timestamp description) in
      process_pages E pdf_path pdir timestamp prompt (S page_num) rest
        (output_files ++ [output_file]) descriptions'
  end.

Definition convert_from_path (E : env) (pdf_path : path) : M nat :=
  match rasterize E pdf_path with
  | Some n => ret n
  | None => raise RasterizationError
  end.

Definition process_pdf (E : env) (pdf_path output_dir : path) (prompt : string)
    : M (list path) :=
  let! timestamp := read_clock E in
  let stm := Str.stem (name pdf_path) in
  let pdir := pdf_output_dir output_dir stm timestamp in
  let! _ := mkdir pdir in
  in_tempdir (
    let! n := convert_from_path E pdf_path in
    let image_paths := map (page_image E pdf_path) (seq 1 n) in
    let! res := process_pages E pdf_path pdir timestamp prompt 1 image_paths [] [] in
    let combined := combined_output pdir stm in
    let! _ := write combined
                (CombinedRecord (name pdf_path) timestamp n (snd res)) in
    ret (fst res ++ [combined])).

(* ------------------------------------------------------------------ *)
(** ** [process_input_path] *)

Definition image_exts : list string := [".jpg"; ".jpeg"; ".png"; ".bmp"; ".gif"].

(** [list(input_path.glob('**/*' + ext))]: for every directory in the
    order the recursive selector visits them, its matching entries in
    listing order (files and directories alike). *)
Definition glob (E : env) (input_path : path) (ext : string) : list path :=
  concat (map (fun '(d, entries) =>
                 map (fun e => d ++ [fst e])
                     (filter (fun e => Str.ends_with ext (fst e)) entries))
              (walk E input_path)).

Fixpoint run_pdfs (E : env) (pdf_files : list path) (output_dir : path)
    (prompt : string) (output_files : list path) : M (list path) :=
  match pdf_files with
  | [] => ret output_files
  | f :: rest =>
      let! outs := process_pdf E f output_dir prompt in
      run_pdfs E rest output_dir prompt (output_files ++ outs)
  end.

Fixpoint run_images (E : env) (image_files : list path) (output_dir : path)
    (prompt : string) (output_files : list path) : M (list path) :=
  match image_files with
  | [] => ret output_files
  | f :: rest =>
      let! out := process_image E f output_dir prompt in
      run_images E rest output_dir prompt (output_files ++ [out])
  end.

Definition is_image_suffix (sfx : string) : bool :=
  existsb (String.eqb sfx) image_exts.

Definition process_input_path (E : env) (input_path output_dir : path)
    (prompt : string) : M (list path) :=
  let! _ := mkdir output_dir in
  match kind_of E input_path with
  | Some File =>
      let sfx := Str.lower (Str.suffix (name input_path)) in
      if String.eqb sfx ".pdf" then process_pdf E input_path output_dir prompt
      else if is_image_suffix sfx then
        let! out := process_image E input_path output_dir prompt in
        ret [out]
      else ret []
  | Some Dir =>
      let pdf_files := glob E input_path ".pdf" in
      let image_files := concat (map (glob E input_path) image_exts) in
      let! outs := run_pdfs E pdf_files output_dir prompt [] in
      run_images E image_files output_dir prompt outs
  | None => raise NotFound
  end.

(* ------------------------------------------------------------------ *)
(** ** Descriptions of a run used in the statements *)

(** The answers of consecutive POSTs numbered from [c] for [imgs]: all
    descriptions, or the first error. *)
Fixpoint request_all (E : env) (prompt : string) (c : nat) (imgs : list path)
    : result (list string) :=
  match imgs with
  | [] => Ok []
  | i :: r =>
      match request_result (http E c prompt i) with
      | Ok d =>
          match request_all E prompt (S c) r with
          | Ok ds => Ok (d :: ds)
          | Err e => Err e
          end
      | Err e => Err e
      end
  end.

(** The page records the loop writes for descriptions [ds] from page [k]. *)
Fixpoint page_files (pdir : path) (nm ts : string) (k : nat) (ds : list string)
    (m : gmap path json) : gmap path json :=
  match ds with
  | [] => m
  | d :: ds' => page_files pdir nm ts (S k) ds' (<[page_output pdir k := PageRecord k nm ts d]> m)
  end.

(** [d[k]] on the dict kept as an insertion-ordered list. *)
Fixpoint dict_get (d : list (string * string)) (k : string) : option string :=
  match d with
  | [] => None
  | (k', v) :: r => if String.eqb k k' then Some v else dict_get r k
  end.

(** The artifact list of one PDF: its page paths in page order, then its
    combined record, all inside [output_dir / "<stem>_<ts>"]. *)
Definition pdf_block (output_dir : path) (b : list path) : Prop :=
  exists s t n,
    b = map (page_output (pdf_output_dir output_dir s t)) (seq 1 n)
        ++ [combined_output (pdf_output_dir output_dir s t) s].

(** The artifact list of one standalone image. *)
Definition image_block (output_dir : path) (b : list path) : Prop :=
  exists s t, b = [image_output output_dir s t].

(** [p] is an output path carrying a timestamp read at a clock tick in
    [lo, hi): an image record, or an entry of a PDF's output folder. *)
Definition stamped (E : env) (output_dir : path) (lo hi : nat) (p : path) : Prop :=
  exists i s, lo <= i < hi /\
    (p = image_output output_dir s (now E i) \/
     exists x, p = pdf_output_dir output_dir s (now E i) ++ [x]).

(** What a run may do to the output records between [w] and [w']: only
    paths stamped during the run change, and no record disappears. *)
Definition grows (E : env) (output_dir : path) (w w' : world) : Prop :=
  ticks w <= ticks w' /\
  (forall p, files w' !! p <> files w !! p -> stamped E output_dir (ticks w) (ticks w') p) /\
  (forall p, is_Some (files w !! p) -> is_Some (files w' !! p)).

(** An output reported by a run that started at tick [lo]: stamped during
    the run and present in the world [w]. *)
Definition recorded (E : env) (output_dir : path) (lo : nat) (w : world) (p : path) : Prop :=
  stamped E output_dir lo (ticks w) p /\ is_Some (files w !! p).

(* ------------------------------------------------------------------ *)
(** ** A sample environment *)

(** [in/] holds [deck.pdf] (2 pages) and [sub/photo.png]; the clock
    reads ["20240615_12300" ^ i] at its [i]-th read; every POST answers
    200 with the call number as description. *)
Definition sample_env : env := {|
  kind_of := fun p =>
    if bool_decide (p = ["in"]) then Some Dir
    else if bool_decide (p = ["in"; "sub"]) then Some Dir
    else if bool_decide (p = ["in"; "deck.pdf"]) then Some File
    else if bool_decide (p = ["in"; "sub"; "photo.png"]) then Some File
    else None;
  walk := fun p =>
    if bool_decide (p = ["in"]) then
      [(["in"], [("deck.pdf", File); ("sub", Dir); ("notes.txt", File)]);
       (["in"; "sub"], [("photo.png", File)])]
    else [];
  now := fun i => "20240615_12300" +:+ pretty (i mod 10);
  rasterize := fun p => if bool_decide (p = ["in"; "deck.pdf"]) then Some 2 else None;
  tmpdir := fun _ => ["tmp"];
  http := fun c _ _ => Response 200 (JsonObject (Some ("d" +:+ pretty c)));
  image_mode := fun _ => Some "RGB"
|}.

Definition empty_world : world :=
  {| files := ∅; dirs := ∅; ticks := 0; calls := 0; sidecars := ∅ |}.

(** The same tree where [deck.pdf] has 3 pages and the second POST
    answers 503. *)
Definition page2_fails_env : env := {|
  kind_of := kind_of sample_env;
  walk := walk sample_env;
  now := now sample_env;
  rasterize := fun _ => Some 3;
  tmpdir := tmpdir sample_env;
  http := fun c _ _ =>
    if c =? 1 then Response 503 NotJson
    else Response 200 (JsonObject (Some ("d" +:+ pretty c)));
  image_mode := image_mode sample_env
|}.

(** The same tree where pdf2image returns no page. *)
Definition blank_pdf_env : env := {|
  kind_of := kind_of sample_env;
  walk := walk sample_env;
  now := now sample_env;
  rasterize := fun _ => Some 0;
  tmpdir := tmpdir sample_env;
  http := http sample_env;
  image_mode := image_mode sample_env
|}.


(** [in/] holds one image, [SLIDE.PNG], with an upper-case extension. *)
Definition upper_case_env : env := {|
  kind_of := fun p =>
    if bool_decide (p = ["in"]) then Some Dir
    else if bool_decide (p = ["in"; "SLIDE.PNG"]) then Some File
    else None;
  walk := fun p =>
    if bool_decide (p = ["in"]) then [(["in"], [("SLIDE.PNG", File)])] else [];
  now := now sample_env;
  rasterize := fun _ => None;
  tmpdir := tmpdir sample_env;
  http := http sample_env;
  image_mode := image_mode sample_env
|}.

(** [in/a/x.png] and [in/b/x.png], both handled within the same second. *)
Definition same_stem_env : env := {|
  kind_of := fun p =>
    if bool_decide (p = ["in"]) then Some Dir
    else if bool_decide (p = ["in"; "a"]) then Some Dir
    else if bool_decide (p = ["in"; "b"]) then Some Dir
    else if bool_decide (p = ["in"; "a"; "x.png"]) then Some File
    else if bool_decide (p = ["in"; "b"; "x.png"]) then Some File
    else None;
  walk := fun p =>
    if bool_decide (p = ["in"]) then
      [(["in"], [("a", Dir); ("b", Dir)]);
       (["in"; "a"], [("x.png", File)]);
       (["in"; "b"], [("x.png", File)])]
    else [];
  now := fun _ => "20240615_123000";
  rasterize := fun _ => None;
  tmpdir := tmpdir sample_env;
  http := http sample_env;
  image_mode := image_mode sample_env
|}.

(** The sample tree with [notes.txt] seen as a regular file. *)
Definition unsupported_env : env := {|
  kind_of := fun p =>
    if bool_decide (p = ["in"; "notes.txt"]) then Some File else kind_of sample_env p;
  walk := walk sample_env;
  now := now sample_env;
  rasterize := rasterize sample_env;
  tmpdir := tmpdir sample_env;
  http := http sample_env;
  image_mode := image_mode sample_env
|}.

(** The sample tree where pdf2image fails. *)
Definition no_pages_env : env := {|
  kind_of := kind_of sample_env;
  walk := walk sample_env;
  now := now sample_env;
  rasterize := fun _ => None;
  tmpdir := tmpdir sample_env;
  http := http sample_env;
  image_mode := image_mode sample_env
|}.

(** The sample tree with a clock that stays within one second. *)
Definition rerun_env : env := {|
  kind_of := kind_of sample_env;
  walk := walk sample_env;
  now := fun _ => "20240615_123000";
  rasterize := rasterize sample_env;
  tmpdir := tmpdir sample_env;
  http := http sample_env;
  image_mode := image_mode sample_env
|}.

(** The sample tree where [photo.png] is a palette image (mode ["P"]). *)
Definition palette_env : env := {|
  kind_of := kind_of sample_env;
  walk := walk sample_env;
  now := now sample_env;
  rasterize := rasterize sample_env;
  tmpdir := tmpdir sample_env;
  http := http sample_env;
  image_mode := fun p => if bool_decide (p = ["in"; "sub"; "photo.png"]) then Some "P" else Some "RGB"
|}.

(* ------------------------------------------------------------------ *)
(** ** The summary [main] logs and [app.py] displays *)

(** [str(path)]: the segments joined with ["/"]; [Path(".")] has no
    segment and prints as ["."], an absolute path starts with the empty
    segment. *)
Fixpoint str_path (p : path) : string :=
  match p with
  | [] => "."
  | [x] => x
  | x :: r => x +:+ "/" +:+ str_path r
  end.

(** Python's [needle in hay] on strings. *)
Fixpoint contains (needle hay : string) {struct hay} : bool :=
  Strings.String.prefix needle hay ||
  match hay with
  | EmptyString => false
  | String _ h => contains needle h
  end.

(** [c in s] for a character. *)
Fixpoint has_char (c : ascii) (s : string) : bool :=
  match s with
  | EmptyString => false
  | String x s' => if ascii_dec x c then true else has_char c s'
  end.

(** [[f for f in output_files if "_all_descriptions.json" in str(f)]] *)
Definition pdf_outputs (output_files : list path) : list path :=
  List.filter (fun f => contains "_all_descriptions.json" (str_path f)) output_files.

(** [[f for f in output_files if "_description_" in str(f) and f not in pdf_outputs]] *)
Definition image_outputs (output_files : list path) : list path :=
  let pdfs := pdf_outputs output_files in
  List.filter (fun f => contains "_description_" (str_path f) &&
                        negb (bool_decide (f ∈ pdfs))) output_files.

(** The two counts logged: image description files, PDF description files. *)
Definition summary (output_files : list path) : nat * nat :=
  (length (image_outputs output_files), length (pdf_outputs output_files)).

(** The artifacts of one processed source: an image record, or the [n]
    page records and the combined record of a PDF. *)
Inductive artifact :=
  | ImageArtifact (stm ts : string)
  | PdfArtifact (stm ts : string) (n : nat).

Definition artifact_paths (output_dir : path) (a : artifact) : list path :=
  match a with
  | ImageArtifact s t => [image_output output_dir s t]
  | PdfArtifact s t n =>
      let pdir := pdf_output_dir output_dir s t in
      map (page_output pdir) (seq 1 n) ++ [combined_output pdir s]
  end.

Definition is_image_artifact (a : artifact) : bool :=
  match a with ImageArtifact _ _ => true | PdfArtifact _ _ _ => false end.

(** A name carrying neither of the two markers the summary looks for. *)
Definition marker_free (s : string) : bool :=
  negb (contains "_description_" s) && negb (contains "_all_descriptions.json" s).

(** The names the artifact's paths add below the output directory are
    free of the markers where the summary could misread them: the image
    record's file name has no ["_all_descriptions.json"], the PDF's
    output folder name has neither marker. *)
Definition artifact_clean (a : artifact) : bool :=
  match a with
  | ImageArtifact s t =>
      negb (contains "_all_descriptions.json" (s +:+ "_description_" +:+ t +:+ ".json"))
  | PdfArtifact s t _ => marker_free (s +:+ "_" +:+ t)
  end.

(* ------------------------------------------------------------------ *)
(** ** [OllamaClient._check_model_availability] *)

(** JSON values as [json.loads] returns them (numbers: integers). *)
#[warnings="-register-all"] Inductive jvalue :=
  | JNull
  | JBool (b : bool)
  | JNum (z : Z)
  | JStr (s : string)
  | JArr (l : list jvalue)
  | JObj (kv : list (string * jvalue)).

(** [d.get(k)] on the dict built from the members [kv]: the last value
    given to [k]; [None] when absent. *)
Fixpoint jget (kv : list (string * jvalue)) (k : string) : option jvalue :=
  match kv with
  | [] => None
  | (k', v) :: r =>
      match jget r k with
      | Some v' => Some v'
      | None => if String.eqb k k' then Some v else None
      end
  end.

(** The keys of that dict, each once, in first-insertion order. *)
Fixpoint dict_keys_go (seen : list string) (kv : list (string * jvalue)) : list string :=
  match kv with
  | [] => []
  | (k, _) :: r =>
      if bool_decide (k ∈ seen) then dict_keys_go seen r
      else k :: dict_keys_go (k :: seen) r
  end.

(** [for x in v]: a list's elements, a string's characters, a dict's
    keys; any other value raises [TypeError] ([None]). *)
Definition py_iter (v : jvalue) : option (list jvalue) :=
  match v with
  | JArr l => Some l
  | JStr s => Some (map (fun c => JStr (String c EmptyString)) (Strings.String.list_ascii_of_string s))
  | JObj kv => Some (map JStr (dict_keys_go [] kv))
  | _ => None
  end.

(** [[model.get("name") for model in models]]: [None] inside is Python's
    [None]; an element that is not a dict raises [AttributeError]
    ([None] outside). *)
Fixpoint entry_names (models : list jvalue) : option (list (option jvalue)) :=
  match models with
  | [] => Some []
  | JObj kv :: r =>
      match entry_names r with
      | Some ns => Some (jget kv "name" :: ns)
      | None => None
      end
  | _ :: _ => None
  end.

(** [model_name == n] for a str [model_name]. *)
Definition name_is (model_name : string) (n : option jvalue) : bool :=
  match n with
  | Some (JStr s) => String.eqb model_name s
  | _ => false
  end.

(** The items [', '.join] accepts: all must be str, else [TypeError]. *)
Fixpoint str_values (ns : list (option jvalue)) : option (list string) :=
  match ns with
  | [] => Some []
  | Some (JStr s) :: r =>
      match str_values r with
      | Some ss => Some (s :: ss)
      | None => None
      end
  | _ :: _ => None
  end.

(** What [requests.get(f"{api_url}/api/tags")] does; the body is [None]
    when it is not JSON. *)
Inductive tags_outcome :=
  | TagsTransportFailure
  | TagsResponse (status : Z) (body : option jvalue).

Inductive init_error :=
  | InitConnectionError   (* ConnectionError *)
  | InitAttributeError    (* AttributeError *)
  | InitTypeError.        (* TypeError *)

(** The constructor returns, with the warnings it logged, or raises. *)
Inductive init_result :=
  | InitOk (warnings : list string)
  | InitErr (e : init_error).

(** The builtin [ConnectionError] raised for a status other than 200 is
    not a [requests.RequestException] and leaves the [try] as it is; a
    transport error and [JSONDecodeError] (a [RequestException] since
    requests 2.27) are turned into [ConnectionError]; [AttributeError]
    and [TypeError] are not caught. *)
Definition check_model_availability (model_name : string) (o : tags_outcome) : init_result :=
  match o with
  | TagsTransportFailure => InitErr InitConnectionError
  | TagsResponse status body =>
      if negb (status =? 200)%Z then InitErr InitConnectionError else
      match body with
      | None => InitErr InitConnectionError
      | Some (JObj kv) =>
          match py_iter (default (JArr []) (jget kv "models")) with
          | None => InitErr InitTypeError
          | Some models =>
              match entry_names models with
              | None => InitErr InitAttributeError
              | Some names =>
                  if existsb (name_is model_name) names then InitOk []
                  else
                    match str_values names with
                    | None => InitErr InitTypeError
                    | Some ss =>
                        InitOk [("Model '" +:+ model_name +:+
                                 "' not found in Ollama. Available models: " +:+
                                 Strings.String.concat ", " ss);
                                ("You may need to run: ollama pull " +:+ model_name)]
                    end
              end
          end
      | Some _ => InitErr InitAttributeError
      end
  end.

(* ------------------------------------------------------------------ *)
(** ** [main] *)

Inductive main_outcome :=
  | Uncaught (e : init_error)                 (* raised by OllamaClient(...), outside the try *)
  | Exit1                                     (* sys.exit(1) after a failed run *)
  | Completed (image_count pdf_count : nat).  (* the counts logged *)

Definition main (E : env) (tags : tags_outcome) (model : string)
    (input_path output_dir : path) (prompt : string) (w : world) : main_outcome * world :=
  match check_model_availability model tags with
  | InitErr e => (Uncaught e, w)
  | InitOk _ =>
      match process_input_path E input_path output_dir prompt w with
      | (Ok output_files, w') => (Completed (length (image_outputs output_files))
                                            (length (pdf_outputs output_files)), w')
      | (Err _, w') => (Exit1, w')
      end
  end.

(* ------------------------------------------------------------------ *)
(** ** [app.py]: saving the uploads and finding an image's output *)

(** Each upload is written ("wb") to [temp_dir / uploaded_file.name]
    and that path appended to [temp_file_paths]. *)
Fixpoint save_uploads (temp_dir : path) (uploads : list (string * list Byte.byte))
    (disk : gmap path (list Byte.byte)) : gmap path (list Byte.byte) * list path :=
  match uploads with
  | [] => (disk, [])
  | (nm, data) :: rest =>
      let p := temp_dir ++ [nm] in
      let '(disk', ps) := save_uploads temp_dir rest (<[p := data]> disk) in
      (disk', p :: ps)
  end.

(** The bytes of the last upload named [nm]. *)
Fixpoint last_upload (nm : string) (uploads : list (string * list Byte.byte))
    : option (list Byte.byte) :=
  match uploads with
  | [] => None
  | (n, data) :: rest =>
      match last_upload nm rest with
      | Some d => Some d
      | None => if String.eqb n nm then Some data else None
      end
  end.

(** The first of [image_outputs] whose [str] contains [file_path.stem]. *)
Fixpoint find_output (stm : string) (outs : list path) : option path :=
  match outs with
  | [] => None
  | f :: r => if contains stm (str_path f) then Some f else find_output stm r
  end.

(** The [for i, file_path in enumerate(temp_file_paths)] loop:
    [process_input_path] on each saved upload, its outputs appended to
    [all_output_files]; the first exception ends the loop. *)
Fixpoint app_process (E : env) (temp_file_paths : list path) (output_dir : path)
    (prompt : string) (all_output_files : list path) : M (list path) :=
  match temp_file_paths with
  | [] => ret all_output_files
  | file_path :: rest =>
      let! output_files := process_input_path E file_path output_dir prompt in
      app_process E rest output_dir prompt (all_output_files ++ output_files)
  end.

(* ------------------------------------------------------------------ *)
(** ** The sources a run hands on, and what each leaves *)

(** The files [process_input_path] passes to [process_pdf] ([false]) and
    to [process_image] ([true]), in the order it passes them. *)
Definition sources (E : env) (input_path : path) : list (bool * path) :=
  match kind_of E input_path with
  | Some File =>
      let sfx := Str.lower (Str.suffix (name input_path)) in
      if String.eqb sfx ".pdf" then [(false, input_path)]
      else if is_image_suffix sfx then [(true, input_path)] else []
  | Some Dir =>
      map (pair false) (glob E input_path ".pdf") ++
      map (pair true) (concat (map (glob E input_path) image_exts))
  | None => []
  end.

(** The artifact a source handled with clock value [ts] leaves: an image
    record named after the file's stem, or a PDF folder holding as many
    page records as pdf2image returned pages. *)
Definition artifact_of (E : env) (ts : string) (src : bool * path) (a : artifact) : Prop :=
  match src, a with
  | (true, f), ImageArtifact s t => s = Str.stem (name f) /\ t = ts
  | (false, f), PdfArtifact s t n => s = Str.stem (name f) /\ t = ts /\ rasterize E f = Some n
  | _, _ => False
  end.

(** The POST requests behind an artifact: one per image, one per page. *)
Definition artifact_requests (a : artifact) : nat :=
  match a with ImageArtifact _ _ => 1 | PdfArtifact _ _ n => n end.

(** The names a source handled at clock read [i] adds to the output
    directory are free of the summary's markers ([artifact_clean] does
    not look at the page count). *)
Definition source_clean (E : env) (i : nat) (src : bool * path) : bool :=
  let '(img, f) := src in
  artifact_clean (if img then ImageArtifact (Str.stem (name f)) (now E i)
                  else PdfArtifact (Str.stem (name f)) (now E i) 0).

(** The clock reads of the sources of a run that starts at tick [t0]. *)
Definition stamp_sources (t0 : nat) (srcs : list (bool * path)) : list (nat * (bool * path)) :=
  zip (seq t0 (length srcs)) srcs.

(* ------------------------------------------------------------------ *)
(** ** Sanity checks on the sample *)

Example suffix_png : Str.suffix "slide.PNG" = ".PNG".
Proof. reflexivity. Qed.
Example stem_tar : Str.stem "a.tar.gz" = "a.tar".
Proof. reflexivity. Qed.
Example stem_hidden : Str.stem ".png" = ".png".
Proof. reflexivity. Qed.
Example lower_png : Str.lower ".PNG" = ".png".
Proof. reflexivity. Qed.
Example ends_with_ok : Str.ends_with ".pdf" "doc.pdf" = true.
Proof. reflexivity. Qed.
Example ends_with_case : Str.ends_with ".pdf" "doc.PDF" = false.
Proof. reflexivity. Qed.

Example sample_run :
  fst (process_input_path sample_env ["in"] ["out"] "describe" empty_world) =
  Ok [["out"; "deck_20240615_123000"; "page_1_description.json"];
      ["out"; "deck_20240615_123000"; "page_2_description.json"];
      ["out"; "deck_20240615_123000"; "deck_all_descriptions.json"];
      ["out"; "photo_description_20240615_123001.json"]].
Proof. vm_compute. reflexivity. Qed.

Example sample_summary :
  files (snd (process_input_path sample_env ["in"] ["out"] "describe" empty_world))
    !! ["out"; "deck_20240615_123000"; "deck_all_descriptions.json"] =
  Some (CombinedRecord "deck.pdf" "20240615_123000" 2 [("1", "d0"); ("2", "d1")]).
Proof. vm_compute. reflexivity. Qed.

(* ------------------------------------------------------------------ *)
(** ** String lemmas *)

Lemma sapp_length (s t : string) :
  Strings.String.length (s +:+ t) = Strings.String.length s + Strings.String.length t.
Proof. induction s; simpl; auto. Qed.

Lemma sapp_assoc (s t u : string) : s +:+ (t +:+ u) = (s +:+ t) +:+ u.
Proof. induction s; simpl; congruence. Qed.

Lemma sapp_inj_l (s x y : string) : s +:+ x = s +:+ y -> x = y.
Proof. induction s; simpl; [auto | intros H; injection H; auto]. Qed.

(** Equal-length tails split an equation of concatenations. *)
Lemma sapp_inj_r (s1 s2 x y : string) :
  Strings.String.length x = Strings.String.length y ->
  s1 +:+ x = s2 +:+ y -> s1 = s2 /\ x = y.
Proof.
  revert s2. induction s1 as [|c s1 IH]; intros [|c' s2] Hl H; simpl in H.
  - auto.
  - subst x. simpl in Hl. rewrite sapp_length in Hl. lia.
  - subst y. simpl in Hl. rewrite sapp_length in Hl. lia.
  - injection H as -> H. destruct (IH s2 Hl H) as [-> ->]. auto.
Qed.

Lemma app_singleton_inj (p : path) (a b : string) : p ++ [a] = p ++ [b] -> a = b.
Proof. intros H. apply app_inv_head in H. congruence. Qed.

(* ------------------------------------------------------------------ *)
(** ** Output names are injective *)

Lemma page_output_inj pdir j1 j2 :
  page_output pdir j1 = page_output pdir j2 -> j1 = j2.
Proof.
  unfold page_output. intros H. apply app_singleton_inj, sapp_inj_l in H.
  apply sapp_inj_r in H as [H _]; [|reflexivity].
  by apply (inj pretty).
Qed.

Lemma page_output_ne_combined pdir j stm :
  page_output pdir j <> combined_output pdir stm.
Proof.
  unfold page_output, combined_output. intros H. apply app_singleton_inj in H.
  change "_description.json" with ("_descriptio" +:+ "n.json") in H.
  change "_all_descriptions.json" with ("_all_description" +:+ "s.json") in H.
  rewrite !sapp_assoc in H.
  apply sapp_inj_r in H as [_ H]; [discriminate | reflexivity].
Qed.

Lemma image_output_inj out s1 t1 s2 t2 :
  Strings.String.length t1 = Strings.String.length t2 ->
  image_output out s1 t1 = image_output out s2 t2 -> s1 = s2 /\ t1 = t2.
Proof.
  unfold image_output. intros Hl H. apply app_singleton_inj in H.
  rewrite !(sapp_assoc _ t1), !(sapp_assoc _ t2), !sapp_assoc in H.
  apply sapp_inj_r in H as [H _]; [|reflexivity].
  apply sapp_inj_r in H as [H ->]; [|exact Hl].
  apply sapp_inj_r in H as [-> _]; [|reflexivity]. auto.
Qed.

Lemma pdf_output_dir_inj out s1 t1 s2 t2 :
  Strings.String.length t1 = Strings.String.length t2 ->
  pdf_output_dir out s1 t1 = pdf_output_dir out s2 t2 -> s1 = s2 /\ t1 = t2.
Proof.
  unfold pdf_output_dir. intros Hl H. apply app_singleton_inj in H.
  rewrite !sapp_assoc in H.
  apply sapp_inj_r in H as [H ->]; [|exact Hl].
  apply sapp_inj_r in H as [-> _]; [|reflexivity]. auto.
Qed.

Lemma pdf_entry_inj out s1 t1 x1 s2 t2 x2 :
  Strings.String.length t1 = Strings.String.length t2 ->
  pdf_output_dir out s1 t1 ++ [x1] = pdf_output_dir out s2 t2 ++ [x2] ->
  s1 = s2 /\ t1 = t2 /\ x1 = x2.
Proof.
  intros Hl H. apply app_inj_tail in H as [H ->].
  destruct (pdf_output_dir_inj _ _ _ _ _ Hl H). auto.
Qed.

Lemma image_ne_pdf_entry out s1 t1 s2 t2 x :
  image_output out s1 t1 <> pdf_output_dir out s2 t2 ++ [x].
Proof.
  unfold image_output, pdf_output_dir. intros H.
  apply (f_equal length) in H. rewrite !length_app in H. simpl in H. lia.
Qed.

(* ------------------------------------------------------------------ *)
(** ** The page loop *)

Lemma request_all_length E prompt c imgs ds :
  request_all E prompt c imgs = Ok ds -> length ds = length imgs.
Proof.
  revert c ds. induction imgs as [|i r IH]; simpl; intros c ds H.
  - by injection H as <-.
  - destruct (request_result _); [|discriminate].
    destruct (request_all E prompt (S c) r) eqn:Hr; [|discriminate].
    injection H as <-. simpl. by rewrite (IH _ _ Hr).
Qed.

Lemma dict_set_fresh (d : list (string * string)) k v :
  k ∉ map fst d -> dict_set d k v = d ++ [(k, v)].
Proof.
  induction d as [|[k' v'] r IH]; simpl; intros Hk; [done|].
  destruct (String.eqb_spec k k') as [->|Hne].
  - exfalso. apply Hk. left.
  - rewrite IH; [done|]. intros Hin. apply Hk. by right.
Qed.

Lemma page_files_lookup_ne pdir nm ts k ds m p :
  (forall j, k <= j < k + length ds -> p <> page_output pdir j) ->
  page_files pdir nm ts k ds m !! p = m !! p.
Proof.
  revert k m. induction ds as [|d ds IH]; simpl; intros k m Hp; [done|].
  rewrite IH; [|intros j Hj; apply Hp; lia].
  rewrite lookup_insert_ne; [done|]. intros Heq. apply (Hp k); [lia|done].
Qed.

Lemma page_files_lookup pdir nm ts k ds m j :
  k <= j < k + length ds ->
  page_files pdir nm ts k ds m !! page_output pdir j
  = (fun d => PageRecord j nm ts d) <$> ds !! (j - k).
Proof.
  revert k m. induction ds as [|d ds IH]; simpl; intros k m Hj; [lia|].
  destruct (decide (j = k)) as [->|Hne].
  - rewrite page_files_lookup_ne.
    + rewrite lookup_insert_eq. by rewrite Nat.sub_diag.
    + intros j' Hj' Heq. apply page_output_inj in Heq. lia.
  - rewrite IH; [|lia]. by replace (j - k) with (S (j - S k)) by lia.
Qed.

Section Pages.
Variables (E : env) (pdf_path pdir : path) (ts prompt : string).

Lemma process_pages_prefix imgs1 imgs2 : forall k outs descs w ds,
  request_all E prompt (calls w) imgs1 = Ok ds ->
  Forall (fun j => pretty j ∉ map fst descs) (seq k (length imgs1)) ->
  process_pages E pdf_path pdir ts prompt k (imgs1 ++ imgs2) outs descs w =
  process_pages E pdf_path pdir ts prompt (k + length imgs1) imgs2
    (outs ++ map (page_output pdir) (seq k (length imgs1)))
    (descs ++ zip (map pretty (seq k (length imgs1))) ds)
    {| files := page_files pdir (name pdf_path) ts k ds (files w);
       dirs := dirs w; ticks := ticks w; calls := calls w + length imgs1;
       sidecars := fold_left (fun s i => {[resized_path i]} ∪ s) imgs1 (sidecars w) |}.
Proof.
  induction imgs1 as [|i r IH]; intros k outs descs w ds Hreq Hfresh.
  - simpl in Hreq. injection Hreq as <-. destruct w. simpl.
    by rewrite !Nat.add_0_r, !app_nil_r.
  - simpl in Hreq.
    destruct (request_result (http E (calls w) prompt i)) as [d|] eqn:Hd; [|discriminate].
    destruct (request_all E prompt (S (calls w)) r) as [ds'|] eqn:Hr; [|discriminate].
    injection Hreq as <-.
    simpl in Hfresh. rewrite Forall_cons in Hfresh. destruct Hfresh as [Hk Hfresh].
    simpl. unfold bind, generate, bind, save_sidecar, post. simpl. rewrite Hd. simpl.
    rewrite IH with (ds := ds'); simpl.
    + rewrite dict_set_fresh by done.
      replace (S (k + length r)) with (k + S (length r)) by lia.
      replace (S (calls w + length r)) with (calls w + S (length r)) by lia.
      rewrite <- !app_assoc. reflexivity.
    + done.
    + rewrite dict_set_fresh by done.
      eapply Forall_impl; [apply Forall_and; split; [exact Hfresh|]|].
      * apply Forall_forall. intros j Hj. apply elem_of_seq in Hj.
        exact (conj Hj I).
      * intros j [Hj [Hjr _]] Hin. rewrite map_app in Hin.
        apply elem_of_app in Hin as [Hin|Hin]; [done|].
        simpl in Hin. apply list_elem_of_singleton in Hin.
        apply (inj pretty) in Hin. lia.
Qed.

End Pages.

Lemma NoDup_map_inj {A B} (f : A -> B) (l : list A) :
  (forall x y, f x = f y -> x = y) -> NoDup l -> NoDup (map f l).
Proof.
  intros Hf. induction 1 as [|x l Hx Hl IH]; simpl; constructor; [|done].
  intros Hin. apply list_elem_of_In, in_map_iff in Hin as (y & Hy & Hin).
  apply Hf in Hy as ->. apply Hx, list_elem_of_In, Hin.
Qed.

Lemma map_fst_zip {A B} (l : list A) (l' : list B) :
  length l' = length l -> map fst (zip l l') = l.
Proof.
  revert l'. induction l as [|x l IH]; intros [|y l'] H; simpl in *; try lia; auto.
  rewrite IH; auto.
Qed.

Lemma dict_get_zip_pages k ds j :
  k <= j < k + length ds ->
  dict_get (zip (map pretty (seq k (length ds))) ds) (pretty j) = ds !! (j - k).
Proof.
  revert k. induction ds as [|d ds IH]; intros k Hj; simpl in *; [lia|].
  destruct (String.eqb_spec (pretty j) (pretty k)) as [Heq|Hne].
  - apply (inj pretty) in Heq as ->. by rewrite Nat.sub_diag.
  - assert (j <> k) by congruence.
    rewrite IH by lia. by replace (j - k) with (S (j - S k)) by lia.
Qed.

Section Pages2.
Variables (E : env) (pdf_path pdir : path) (ts prompt : string).

Lemma process_pages_all imgs k outs descs w ds :
  request_all E prompt (calls w) imgs = Ok ds ->
  Forall (fun j => pretty j ∉ map fst descs) (seq k (length imgs)) ->
  process_pages E pdf_path pdir ts prompt k imgs outs descs w =
  (Ok (outs ++ map (page_output pdir) (seq k (length imgs)),
       descs ++ zip (map pretty (seq k (length imgs))) ds),
   {| files := page_files pdir (name pdf_path) ts k ds (files w);
      dirs := dirs w; ticks := ticks w; calls := calls w + length imgs;
      sidecars := fold_left (fun s i => {[resized_path i]} ∪ s) imgs (sidecars w) |}).
Proof.
  intros Hreq Hfresh.
  pose proof (process_pages_prefix E pdf_path pdir ts prompt imgs [] k outs descs w ds
                Hreq Hfresh) as H.
  rewrite app_nil_r in H. rewrite H. reflexivity.
Qed.

Lemma process_pages_fail imgs1 img rest k outs descs w ds e :
  request_all E prompt (calls w) imgs1 = Ok ds ->
  Forall (fun j => pretty j ∉ map fst descs) (seq k (length imgs1)) ->
  request_result (http E (calls w + length imgs1) prompt img) = Err e ->
  process_pages E pdf_path pdir ts prompt k (imgs1 ++ img :: rest) outs descs w =
  (Err e,
   {| files := page_files pdir (name pdf_path) ts k ds (files w);
      dirs := dirs w; ticks := ticks w; calls := S (calls w + length imgs1);
      sidecars := {[resized_path img]} ∪ fold_left (fun s i => {[resized_path i]} ∪ s) imgs1 (sidecars w) |}).
Proof.
  intros Hreq Hfresh He.
  rewrite (process_pages_prefix E pdf_path pdir ts prompt imgs1 (img :: rest) k outs descs w ds
             Hreq Hfresh).
  simpl. unfold bind, generate, bind, save_sidecar, post. simpl. by rewrite He.
Qed.

(** Whatever the answers, a successful loop returns its page paths in
    page order. *)
Lemma process_pages_shape imgs : forall k outs descs w r w',
  process_pages E pdf_path pdir ts prompt k imgs outs descs w = (Ok r, w') ->
  fst r = outs ++ map (page_output pdir) (seq k (length imgs)).
Proof.
  induction imgs as [|i rest IH]; intros k outs descs w r w' H; simpl in H.
  - injection H as <- _. simpl. by rewrite app_nil_r.
  - unfold bind, generate, bind, save_sidecar, post in H. simpl in H.
    destruct (request_result _) as [d|e]; simpl in H; [|discriminate].
    apply IH in H. rewrite H. simpl. by rewrite <- app_assoc.
Qed.

End Pages2.

Lemma fresh_nil (ks : list nat) : Forall (fun j => pretty j ∉ map fst ([] : list (string * string))) ks.
Proof. apply Forall_forall. intros j _ Hin. simpl in Hin. by apply not_elem_of_nil in Hin. Qed.

(* ------------------------------------------------------------------ *)
(** ** [process_pdf] end to end *)

Section Pdf.
Variables (E : env) (pdf_path output_dir : path) (prompt : string).

Lemma process_pdf_ok w n ds :
  rasterize E pdf_path = Some n ->
  request_all E prompt (calls w) (map (page_image E pdf_path) (seq 1 n)) = Ok ds ->
  let t := now E (ticks w) in
  let s := Str.stem (name pdf_path) in
  let pdir := pdf_output_dir output_dir s t in
  process_pdf E pdf_path output_dir prompt w =
  (Ok (map (page_output pdir) (seq 1 n) ++ [combined_output pdir s]),
   {| files := <[combined_output pdir s :=
                   CombinedRecord (name pdf_path) t n (zip (map pretty (seq 1 n)) ds)]>
                 (page_files pdir (name pdf_path) t 1 ds (files w));
      dirs := {[pdir]} ∪ dirs w; ticks := S (ticks w); calls := calls w + n;
      sidecars := sidecars w |}).
Proof.
  intros Hn Hreq t s pdir.
  unfold process_pdf, bind, read_clock, mkdir, in_tempdir, convert_from_path. simpl.
  rewrite Hn. simpl.
  rewrite process_pages_all with (ds := ds); [| exact Hreq | apply fresh_nil].
  rewrite length_map, length_seq. reflexivity.
Qed.

Lemma process_pdf_fail w n k ds e :
  rasterize E pdf_path = Some n -> 1 <= k <= n ->
  request_all E prompt (calls w) (map (page_image E pdf_path) (seq 1 (k - 1))) = Ok ds ->
  request_result (http E (calls w + (k - 1)) prompt (page_image E pdf_path k)) = Err e ->
  let t := now E (ticks w) in
  let s := Str.stem (name pdf_path) in
  let pdir := pdf_output_dir output_dir s t in
  process_pdf E pdf_path output_dir prompt w =
  (Err e,
   {| files := page_files pdir (name pdf_path) t 1 ds (files w);
      dirs := {[pdir]} ∪ dirs w; ticks := S (ticks w); calls := S (calls w + (k - 1));
      sidecars := sidecars w |}).
Proof.
  intros Hn Hk Hreq He t s pdir.
  unfold process_pdf, bind, read_clock, mkdir, in_tempdir, convert_from_path. simpl.
  rewrite Hn. simpl.
  replace n with ((k - 1) + S (n - k)) by lia.
  rewrite seq_app. replace (1 + (k - 1)) with k by lia. simpl.
  rewrite map_app. simpl.
  rewrite process_pages_fail with (ds := ds) (e := e);
    [ | exact Hreq | apply fresh_nil | rewrite length_map, length_seq; exact He].
  rewrite length_map, length_seq. reflexivity.
Qed.

End Pdf.

Lemma elem_of_map_page pdir n p :
  p ∈ map (page_output pdir) (seq 1 n) <-> exists j, 1 <= j < 1 + n /\ p = page_output pdir j.
Proof.
  rewrite list_elem_of_In, in_map_iff. split.
  - intros (j & <- & Hj). apply in_seq in Hj. eauto.
  - intros (j & Hj & ->). exists j. split; [done|]. apply in_seq. lia.
Qed.

Lemma pdf_outputs_NoDup pdir s n :
  NoDup (map (page_output pdir) (seq 1 n) ++ [combined_output pdir s]).
Proof.
  apply NoDup_app. split; [|split].
  - apply NoDup_map_inj; [apply page_output_inj | apply NoDup_seq].
  - intros x Hx Hc. apply list_elem_of_singleton in Hc as ->.
    apply elem_of_map_page in Hx as (j & _ & Hj).
    by apply (page_output_ne_combined pdir j s).
  - apply NoDup_singleton.
Qed.

(* ------------------------------------------------------------------ *)
(** ** Claims about [process_pdf] *)

(** C1: when rasterization yields [n] pages and every page's inference
    call succeeds, [process_pdf] writes exactly the [n] page records
    [page_1 .. page_n] (page fields 1..n, all at distinct paths) and one
    combined record whose [total_pages] is [n], whose [pages] keys are
    exactly ["1" .. "n"], and whose [pages["k"]] is the description of
    page record [k]; no other file is touched. *)
Theorem process_pdf_pages_and_summary E pdf_path output_dir prompt w n ds :
  rasterize E pdf_path = Some n ->
  request_all E prompt (calls w) (map (page_image E pdf_path) (seq 1 n)) = Ok ds ->
  let t := now E (ticks w) in
  let s := Str.stem (name pdf_path) in
  let pdir := pdf_output_dir output_dir s t in
  exists outs w' pages,
    process_pdf E pdf_path output_dir prompt w = (Ok outs, w') /\
    outs = map (page_output pdir) (seq 1 n) ++ [combined_output pdir s] /\
    NoDup outs /\
    (forall p, p ∉ outs -> files w' !! p = files w !! p) /\
    (forall k, 1 <= k <= n -> exists d,
        files w' !! page_output pdir k = Some (PageRecord k (name pdf_path) t d) /\
        dict_get pages (pretty k) = Some d) /\
    files w' !! combined_output pdir s = Some (CombinedRecord (name pdf_path) t n pages) /\
    map fst pages = map pretty (seq 1 n) /\
    NoDup (map fst pages).
Proof.
  intros Hn Hreq. cbv zeta.
  pose proof (request_all_length _ _ _ _ _ Hreq) as Hlen.
  rewrite length_map, length_seq in Hlen. subst n.
  rewrite (process_pdf_ok E pdf_path output_dir prompt w _ ds Hn Hreq).
  eexists _, _, _. split; [reflexivity|]. cbn [files].
  split; [reflexivity|]. split; [apply pdf_outputs_NoDup|].
  split; [|split; [|split; [|split]]].
  - intros p Hp. rewrite lookup_insert_ne.
    2:{ intros <-. apply Hp, elem_of_app. right. by left. }
    apply page_files_lookup_ne. intros j Hj ->. apply Hp, elem_of_app. left.
    apply elem_of_map_page. exists j. split; [lia|done].
  - intros k Hk.
    destruct (lookup_lt_is_Some_2 ds (k - 1)) as [d Hd]; [lia|].
    exists d. split.
    + rewrite lookup_insert_ne by (intros Heq; symmetry in Heq;
                                   exact (page_output_ne_combined _ _ _ Heq)).
      rewrite page_files_lookup by lia. by rewrite Hd.
    + rewrite dict_get_zip_pages; [done | lia].
  - apply lookup_insert_eq.
  - apply map_fst_zip. by rewrite length_map, length_seq.
  - rewrite map_fst_zip by (by rewrite length_map, length_seq).
    apply NoDup_map_inj; [apply (inj pretty) | apply NoDup_seq].
Qed.

Lemma process_pdf_pages_and_summary_witness :
  rasterize sample_env ["in"; "deck.pdf"] = Some 2 /\
  request_all sample_env "describe" (calls empty_world)
    (map (page_image sample_env ["in"; "deck.pdf"]) (seq 1 2)) = Ok ["d0"; "d1"] /\
  let t := now sample_env (ticks empty_world) in
  let s := Str.stem (name ["in"; "deck.pdf"]) in
  let pdir := pdf_output_dir ["out"] s t in
  exists outs w' pages,
    process_pdf sample_env ["in"; "deck.pdf"] ["out"] "describe" empty_world = (Ok outs, w') /\
    outs = map (page_output pdir) (seq 1 2) ++ [combined_output pdir s] /\
    NoDup outs /\
    (forall p, p ∉ outs -> files w' !! p = files empty_world !! p) /\
    (forall k, 1 <= k <= 2 -> exists d,
        files w' !! page_output pdir k = Some (PageRecord k (name ["in"; "deck.pdf"]) t d) /\
        dict_get pages (pretty k) = Some d) /\
    files w' !! combined_output pdir s
      = Some (CombinedRecord (name ["in"; "deck.pdf"]) t 2 pages) /\
    map fst pages = map pretty (seq 1 2) /\
    NoDup (map fst pages).
Proof.
  split; [reflexivity|]. split; [vm_compute; reflexivity|].
  apply (process_pdf_pages_and_summary sample_env ["in"; "deck.pdf"] ["out"] "describe"
           empty_world 2 ["d0"; "d1"]); vm_compute; reflexivity.
Defined.

(** C2: when the inference call of page [k] fails (pages [1 .. k-1]
    succeeding), [process_pdf] raises that same error, writes no combined
    record, leaves the records of pages [1 .. k-1] on disk and touches no
    other file; a single-file invocation on that PDF fails with the same
    error. *)
Theorem process_pdf_page_failure E pdf_path output_dir prompt w n k ds e :
  rasterize E pdf_path = Some n -> 1 <= k <= n ->
  request_all E prompt (calls w) (map (page_image E pdf_path) (seq 1 (k - 1))) = Ok ds ->
  request_result (http E (calls w + (k - 1)) prompt (page_image E pdf_path k)) = Err e ->
  let t := now E (ticks w) in
  let s := Str.stem (name pdf_path) in
  let pdir := pdf_output_dir output_dir s t in
  let res := process_pdf E pdf_path output_dir prompt w in
  fst res = Err e /\
  files (snd res) !! combined_output pdir s = files w !! combined_output pdir s /\
  (forall j, 1 <= j < k -> exists d,
      files (snd res) !! page_output pdir j = Some (PageRecord j (name pdf_path) t d)) /\
  (forall p, (forall j, 1 <= j < k -> p <> page_output pdir j) ->
      files (snd res) !! p = files w !! p) /\
  (kind_of E pdf_path = Some File ->
   Str.lower (Str.suffix (name pdf_path)) = ".pdf" ->
   fst (process_input_path E pdf_path output_dir prompt w) = Err e).
Proof.
  intros Hn Hk Hreq He. cbv zeta.
  pose proof (request_all_length _ _ _ _ _ Hreq) as Hlen.
  rewrite length_map, length_seq in Hlen.
  rewrite (process_pdf_fail E pdf_path output_dir prompt w n k ds e Hn Hk Hreq He).
  cbn [fst snd files].
  split; [done|]. split; [|split; [|split]].
  - apply page_files_lookup_ne. intros j _ Heq. symmetry in Heq.
    exact (page_output_ne_combined _ _ _ Heq).
  - intros j Hj. destruct (lookup_lt_is_Some_2 ds (j - 1)) as [d Hd]; [lia|].
    exists d. rewrite page_files_lookup; [by rewrite Hd | lia].
  - intros p Hp. apply page_files_lookup_ne. intros j Hj. apply Hp. lia.
  - intros Hkind Hsfx. unfold process_input_path, bind, mkdir.
    cbn [fst snd]. rewrite Hkind, Hsfx. cbv beta iota.
    change (String.eqb ".pdf" ".pdf") with true. cbv beta iota.
    erewrite process_pdf_fail; [reflexivity | exact Hn | exact Hk | exact Hreq | exact He].
Qed.

Lemma process_pdf_page_failure_witness :
  rasterize page2_fails_env ["in"; "deck.pdf"] = Some 3 /\ 1 <= 2 <= 3 /\
  request_all page2_fails_env "describe" (calls empty_world)
    (map (page_image page2_fails_env ["in"; "deck.pdf"]) (seq 1 (2 - 1))) = Ok ["d0"] /\
  request_result (http page2_fails_env (calls empty_world + (2 - 1)) "describe"
                    (page_image page2_fails_env ["in"; "deck.pdf"] 2)) = Err InferenceError /\
  let t := now page2_fails_env (ticks empty_world) in
  let s := Str.stem (name ["in"; "deck.pdf"]) in
  let pdir := pdf_output_dir ["out"] s t in
  let res := process_pdf page2_fails_env ["in"; "deck.pdf"] ["out"] "describe" empty_world in
  fst res = Err InferenceError /\
  files (snd res) !! combined_output pdir s = files empty_world !! combined_output pdir s /\
  (forall j, 1 <= j < 2 -> exists d,
      files (snd res) !! page_output pdir j
        = Some (PageRecord j (name ["in"; "deck.pdf"]) t d)) /\
  (forall p, (forall j, 1 <= j < 2 -> p <> page_output pdir j) ->
      files (snd res) !! p = files empty_world !! p) /\
  (kind_of page2_fails_env ["in"; "deck.pdf"] = Some File ->
   Str.lower (Str.suffix (name ["in"; "deck.pdf"])) = ".pdf" ->
   fst (process_input_path page2_fails_env ["in"; "deck.pdf"] ["out"] "describe" empty_world)
     = Err InferenceError).
Proof.
  split; [reflexivity|]. split; [lia|]. split; [vm_compute; reflexivity|].
  split; [vm_compute; reflexivity|].
  apply (process_pdf_page_failure page2_fails_env ["in"; "deck.pdf"] ["out"] "describe"
           empty_world 3 2 ["d0"] InferenceError); [reflexivity | lia | vm_compute; reflexivity
                                                   | vm_compute; reflexivity].
Defined.

(** C10: when pdf2image returns no page, [process_pdf] succeeds: it
    writes no page record and exactly one combined record, with
    [total_pages = 0] and an empty [pages] dict, and returns that one
    path. *)
Theorem process_pdf_zero_pages E pdf_path output_dir prompt w :
  rasterize E pdf_path = Some 0 ->
  let t := now E (ticks w) in
  let s := Str.stem (name pdf_path) in
  let pdir := pdf_output_dir output_dir s t in
  process_pdf E pdf_path output_dir prompt w =
  (Ok [combined_output pdir s],
   {| files := <[combined_output pdir s := CombinedRecord (name pdf_path) t 0 []]> (files w);
      dirs := {[pdir]} ∪ dirs w; ticks := S (ticks w); calls := calls w; sidecars := sidecars w |}).
Proof.
  intros Hn. cbv zeta.
  rewrite (process_pdf_ok E pdf_path output_dir prompt w 0 [] Hn eq_refl).
  simpl. by rewrite Nat.add_0_r.
Qed.

Lemma process_pdf_zero_pages_witness :
  rasterize blank_pdf_env ["in"; "deck.pdf"] = Some 0 /\
  let t := now blank_pdf_env (ticks empty_world) in
  let s := Str.stem (name ["in"; "deck.pdf"]) in
  let pdir := pdf_output_dir ["out"] s t in
  process_pdf blank_pdf_env ["in"; "deck.pdf"] ["out"] "describe" empty_world =
  (Ok [combined_output pdir s],
   {| files := <[combined_output pdir s :=
                   CombinedRecord (name ["in"; "deck.pdf"]) t 0 []]> (files empty_world);
      dirs := {[pdir]} ∪ dirs empty_world; ticks := S (ticks empty_world);
      calls := calls empty_world; sidecars := sidecars empty_world |}).
Proof.
  split; [reflexivity|].
  apply (process_pdf_zero_pages blank_pdf_env ["in"; "deck.pdf"] ["out"] "describe" empty_world).
  reflexivity.
Defined.

(* ------------------------------------------------------------------ *)
(** ** Claims about [process_input_path] *)

(** C7: an input path that is neither a file nor a directory makes
    [process_input_path] raise [FileNotFoundError] without writing any
    output record. *)
Theorem process_input_path_missing E input_path output_dir prompt w :
  kind_of E input_path = None ->
  fst (process_input_path E input_path output_dir prompt w) = Err NotFound /\
  files (snd (process_input_path E input_path output_dir prompt w)) = files w.
Proof.
  intros H. unfold process_input_path, bind, mkdir. cbn [fst snd]. rewrite H.
  split; reflexivity.
Qed.

Lemma process_input_path_missing_witness :
  kind_of sample_env ["nowhere"] = None /\
  fst (process_input_path sample_env ["nowhere"] ["out"] "describe" empty_world) = Err NotFound /\
  files (snd (process_input_path sample_env ["nowhere"] ["out"] "describe" empty_world))
    = files empty_world.
Proof.
  split; [reflexivity|].
  apply (process_input_path_missing sample_env ["nowhere"] ["out"] "describe" empty_world).
  reflexivity.
Defined.

(* ------------------------------------------------------------------ *)
(** ** Claims about [OllamaClient.generate] *)




(** C4, failing input: a directory holding [SLIDE.PNG] yields no
    artifact, whereas the same file given directly is processed. *)
Theorem upper_case_extension_skipped_in_directory :
  process_input_path upper_case_env ["in"] ["out"] "describe" empty_world
    = (Ok [], {| files := ∅; dirs := {[["out"]]}; ticks := 0; calls := 0; sidecars := ∅ |}) /\
  fst (process_input_path upper_case_env ["in"; "SLIDE.PNG"] ["out"] "describe" empty_world)
    = Ok [["out"; "SLIDE_description_20240615_123000.json"]].
Proof. split; vm_compute; reflexivity. Qed.

(* ------------------------------------------------------------------ *)
(** ** Claims about output addressing *)

(** C3 (code bug): [in/a/x.png] and [in/b/x.png] processed in the same
    second are both written to [out/x_description_<ts>.json]; the second
    record replaces the first, although the timestamp is there, by the
    comments of [process_image] and [process_pdf], to make the file names
    unique. Two distinct sources of one run share an output path. *)
Lemma same_stem_collision :
  let res := process_input_path same_stem_env ["in"] ["out"] "describe" empty_world in
  ["in"; "a"; "x.png"] <> ["in"; "b"; "x.png"] /\
  fst res = Ok [["out"; "x_description_20240615_123000.json"];
                ["out"; "x_description_20240615_123000.json"]] /\
  files (snd res) !! ["out"; "x_description_20240615_123000.json"]
    = Some (ImageRecord "x.png" "20240615_123000" "d1") /\
  size (files (snd res)) = 1.
Proof. vm_compute. split; [discriminate|]. repeat split. Qed.

(** The output path helpers are injective in (record kind, source stem,
    timestamp, page number) for timestamps of one length (the
    [%Y%m%d_%H%M%S] format): records of different kinds never share a
    path, and two records of one kind share a path only when their
    sources have the same stem and the same captured timestamp (and, for
    pages, the same page number). *)
Theorem output_paths_injective out s1 t1 s2 t2 :
  Strings.String.length t1 = Strings.String.length t2 ->
  (image_output out s1 t1 = image_output out s2 t2 -> s1 = s2 /\ t1 = t2) /\
  (forall j1 j2, page_output (pdf_output_dir out s1 t1) j1 =
                 page_output (pdf_output_dir out s2 t2) j2 ->
                 s1 = s2 /\ t1 = t2 /\ j1 = j2) /\
  (combined_output (pdf_output_dir out s1 t1) s1 =
   combined_output (pdf_output_dir out s2 t2) s2 -> s1 = s2 /\ t1 = t2) /\
  (forall j, page_output (pdf_output_dir out s1 t1) j <>
             combined_output (pdf_output_dir out s2 t2) s2) /\
  (forall j, image_output out s1 t1 <> page_output (pdf_output_dir out s2 t2) j) /\
  image_output out s1 t1 <> combined_output (pdf_output_dir out s2 t2) s2.
Proof.
  intros Hl. split; [|split; [|split; [|split; [|split]]]].
  - by apply image_output_inj.
  - intros j1 j2 H. pose proof H as H'.
    unfold page_output in H'. apply pdf_entry_inj in H' as (-> & -> & _); [|done].
    apply page_output_inj in H. auto.
  - intros H. unfold combined_output in H.
    apply pdf_entry_inj in H as (-> & -> & _); auto.
  - intros j H. pose proof H as H'.
    unfold page_output, combined_output in H'.
    apply pdf_entry_inj in H' as (-> & -> & _); [|done].
    by apply page_output_ne_combined in H.
  - intros j. apply image_ne_pdf_entry.
  - apply image_ne_pdf_entry.
Qed.

Lemma output_paths_injective_witness :
  Strings.String.length "20240615_123000" = Strings.String.length "20240615_123001" /\
  (image_output ["out"] "x" "20240615_123000" = image_output ["out"] "x" "20240615_123001" ->
   "x" = "x" /\ "20240615_123000" = "20240615_123001") /\
  (forall j1 j2, page_output (pdf_output_dir ["out"] "x" "20240615_123000") j1 =
                 page_output (pdf_output_dir ["out"] "x" "20240615_123001") j2 ->
                 "x" = "x" /\ "20240615_123000" = "20240615_123001" /\ j1 = j2) /\
  (combined_output (pdf_output_dir ["out"] "x" "20240615_123000") "x" =
   combined_output (pdf_output_dir ["out"] "x" "20240615_123001") "x" ->
   "x" = "x" /\ "20240615_123000" = "20240615_123001") /\
  (forall j, page_output (pdf_output_dir ["out"] "x" "20240615_123000") j <>
             combined_output (pdf_output_dir ["out"] "x" "20240615_123001") "x") /\
  (forall j, image_output ["out"] "x" "20240615_123000" <>
             page_output (pdf_output_dir ["out"] "x" "20240615_123001") j) /\
  image_output ["out"] "x" "20240615_123000" <>
    combined_output (pdf_output_dir ["out"] "x" "20240615_123001") "x".
Proof.
  split; [reflexivity|].
  apply (output_paths_injective ["out"] "x" "20240615_123000" "x" "20240615_123001").
  reflexivity.
Defined.

(* ------------------------------------------------------------------ *)
(** ** Inverting successful runs *)

Lemma process_pages_success_req E pdf_path pdir ts prompt imgs : forall k outs descs w r w',
  process_pages E pdf_path pdir ts prompt k imgs outs descs w = (Ok r, w') ->
  exists ds, request_all E prompt (calls w) imgs = Ok ds.
Proof.
  induction imgs as [|i rest IH]; intros k outs descs w r w' H; simpl in H.
  - by exists [].
  - unfold bind, generate, bind, save_sidecar, post in H. simpl in H.
    destruct (request_result (http E (calls w) prompt i)) as [d|e] eqn:Hd;
      simpl in H; [|discriminate].
    apply IH in H as [ds Hds]. simpl in Hds.
    exists (d :: ds). simpl. by rewrite Hd, Hds.
Qed.

Lemma process_pdf_success_inv E pdf_path output_dir prompt w outs w' :
  process_pdf E pdf_path output_dir prompt w = (Ok outs, w') ->
  exists n ds, rasterize E pdf_path = Some n /\
    request_all E prompt (calls w) (map (page_image E pdf_path) (seq 1 n)) = Ok ds.
Proof.
  unfold process_pdf, bind, read_clock, mkdir, in_tempdir, convert_from_path. simpl.
  destruct (rasterize E pdf_path) as [n|]; simpl; [|discriminate].
  match goal with
  | |- context [process_pages ?E ?a ?b ?c ?d ?k ?imgs ?o ?ds ?w0] =>
      destruct (process_pages E a b c d k imgs o ds w0) as [[r|e] w1] eqn:Hp
  end; [|discriminate].
  intros _. apply process_pages_success_req in Hp as [ds Hds].
  exists n, ds. split; [done|exact Hds].
Qed.

Lemma process_image_ok E image_path output_dir prompt w o w' :
  process_image E image_path output_dir prompt w = (Ok o, w') ->
  let ts := now E (ticks w) in
  o = image_output output_dir (Str.stem (name image_path)) ts /\
  (exists d, files w' = <[o := ImageRecord (name image_path) ts d]> (files w)) /\
  ticks w' = S (ticks w).
Proof.
  unfold process_image, generate, bind, save_sidecar, post, read_clock, write, ret.
  destruct (kind_of E image_path) as [[|]|]; simpl; try discriminate.
  destruct (image_mode E image_path) as [m|]; simpl; [|discriminate].
  destruct (jpeg_saveable m); simpl; [|discriminate].
  destruct (request_result (http E (calls w) prompt image_path)) as [d|e];
    simpl; [|discriminate].
  intros H. injection H as <- <-. simpl. split; [done|]. split; [|done].
  by exists d.
Qed.

Lemma process_pdf_block E pdf_path output_dir prompt w outs w' :
  process_pdf E pdf_path output_dir prompt w = (Ok outs, w') ->
  pdf_block output_dir outs.
Proof.
  intros H. pose proof H as H'.
  apply process_pdf_success_inv in H' as (n & ds & Hn & Hreq).
  rewrite (process_pdf_ok E pdf_path output_dir prompt w n ds Hn Hreq) in H.
  injection H as <- _. eexists _, _, n. reflexivity.
Qed.

Lemma run_pdfs_blocks E output_dir prompt fs : forall acc w outs w',
  run_pdfs E fs output_dir prompt acc w = (Ok outs, w') ->
  exists blocks, outs = acc ++ concat blocks /\ Forall (pdf_block output_dir) blocks.
Proof.
  induction fs as [|f rest IH]; intros acc w outs w' H; simpl in H.
  - injection H as <- _. exists []. by rewrite app_nil_r.
  - unfold bind in H.
    destruct (process_pdf E f output_dir prompt w) as [[o|e] w1] eqn:Hf; [|discriminate].
    apply IH in H as (blocks & -> & Hb).
    exists (o :: blocks). split; [by rewrite <- app_assoc|].
    constructor; [|done]. by apply process_pdf_block in Hf.
Qed.

Lemma run_images_blocks E output_dir prompt fs : forall acc w outs w',
  run_images E fs output_dir prompt acc w = (Ok outs, w') ->
  exists blocks, outs = acc ++ concat blocks /\ Forall (image_block output_dir) blocks.
Proof.
  induction fs as [|f rest IH]; intros acc w outs w' H; simpl in H.
  - injection H as <- _. exists []. by rewrite app_nil_r.
  - unfold bind in H.
    destruct (process_image E f output_dir prompt w) as [[o|e] w1] eqn:Hf; [|discriminate].
    apply IH in H as (blocks & -> & Hb).
    exists ([o] :: blocks). split; [by rewrite <- app_assoc|].
    constructor; [|done]. apply process_image_ok in Hf as [-> _]. eexists _, _. reflexivity.
Qed.

(* ------------------------------------------------------------------ *)
(** ** Order of the returned artifacts *)

(** C9: the artifact list of a successful [process_pdf] is its page
    paths for pages 1, 2, ..., n followed by the combined-record path;
    the list returned by [process_input_path] is the concatenation of the
    per-file lists, each PDF's list kept whole and in that order. *)
Theorem artifact_order E input_path output_dir prompt w :
  (forall pdf_path outs w',
     process_pdf E pdf_path output_dir prompt w = (Ok outs, w') ->
     pdf_block output_dir outs) /\
  (forall outs w',
     process_input_path E input_path output_dir prompt w = (Ok outs, w') ->
     exists blocks, outs = concat blocks /\
       Forall (fun b => pdf_block output_dir b \/ image_block output_dir b) blocks).
Proof.
  split; [intros ? ? ?; apply process_pdf_block|].
  intros outs w' H. unfold process_input_path, bind at 1, mkdir in H.
  cbv beta iota in H.
  destruct (kind_of E input_path) as [[|]|]; cbv beta iota in H.
  - destruct (String.eqb _ ".pdf").
    + exists [outs]. split; [simpl; by rewrite app_nil_r|].
      constructor; [|done]. left. by apply process_pdf_block in H.
    + destruct (is_image_suffix _).
      * unfold bind in H.
        destruct (process_image E input_path output_dir prompt _) as [[o|e] w1] eqn:Hi;
          [|discriminate].
        injection H as <- _. exists [[o]]. split; [done|].
        constructor; [|done]. right.
        apply process_image_ok in Hi as [-> _]. eexists _, _. reflexivity.
      * injection H as <- _. exists []. done.
  - unfold bind in H.
    destruct (run_pdfs E _ output_dir prompt [] _) as [[o|e] w1] eqn:Hp; [|discriminate].
    apply run_pdfs_blocks in Hp as (b1 & -> & Hb1).
    apply run_images_blocks in H as (b2 & -> & Hb2).
    exists (b1 ++ b2). split; [by rewrite concat_app|].
    apply Forall_app. split.
    + eapply Forall_impl; [exact Hb1|]. auto.
    + eapply Forall_impl; [exact Hb2|]. auto.
  - discriminate.
Qed.

Lemma pdf_page_lookup pdir nm t n ds m s k X :
  length ds = n -> 1 <= k <= n ->
  exists d, <[combined_output pdir s := X]> (page_files pdir nm t 1 ds m) !! page_output pdir k
            = Some (PageRecord k nm t d).
Proof.
  intros Hlen Hk.
  destruct (lookup_lt_is_Some_2 ds (k - 1)) as [d Hd]; [lia|].
  exists d.
  rewrite lookup_insert_ne by (intros Heq; symmetry in Heq;
                               exact (page_output_ne_combined _ _ _ Heq)).
  rewrite page_files_lookup; [by rewrite Hd | lia].
Qed.

(* ------------------------------------------------------------------ *)
(** ** Naming scheme *)

(** C6: a standalone image's record goes to
    [output_dir/{stem}_description_{ts}.json]; a PDF's page records go to
    [page_{k}_description.json] and its combined record to
    [{stem}_all_descriptions.json], both in the folder
    [output_dir/{stem}_{ts}] created for it, with the one timestamp read
    at the start of [process_pdf] in the folder name and in every record. *)
Theorem output_naming_scheme E output_dir prompt w :
  (forall image_path o w',
     process_image E image_path output_dir prompt w = (Ok o, w') ->
     let ts := now E (ticks w) in
     o = output_dir ++ [Str.stem (name image_path) +:+ "_description_" +:+ ts +:+ ".json"] /\
     exists d, files w' !! o = Some (ImageRecord (name image_path) ts d)) /\
  (forall pdf_path outs w',
     process_pdf E pdf_path output_dir prompt w = (Ok outs, w') ->
     let ts := now E (ticks w) in
     let s := Str.stem (name pdf_path) in
     let pdir := output_dir ++ [s +:+ "_" +:+ ts] in
     let n := length outs - 1 in
     pdir ∈ dirs w' /\
     outs = map (fun k => pdir ++ ["page_" +:+ pretty k +:+ "_description.json"]) (seq 1 n)
            ++ [pdir ++ [s +:+ "_all_descriptions.json"]] /\
     (forall k, 1 <= k <= n -> exists d,
        files w' !! (pdir ++ ["page_" +:+ pretty k +:+ "_description.json"])
          = Some (PageRecord k (name pdf_path) ts d)) /\
     exists pages, files w' !! (pdir ++ [s +:+ "_all_descriptions.json"])
                     = Some (CombinedRecord (name pdf_path) ts n pages)).
Proof.
  split.
  - intros image_path o w' H. cbv zeta.
    apply process_image_ok in H as (-> & [d Hf] & _).
    split; [reflexivity|]. exists d. rewrite Hf. apply lookup_insert_eq.
  - intros pdf_path outs w' H. cbv zeta. pose proof H as H'.
    apply process_pdf_success_inv in H' as (n & ds & Hn & Hreq).
    pose proof (request_all_length _ _ _ _ _ Hreq) as Hlen.
    rewrite length_map, length_seq in Hlen.
    rewrite (process_pdf_ok E pdf_path output_dir prompt w n ds Hn Hreq) in H.
    injection H as <- <-.
    rewrite length_app, length_map, length_seq. simpl.
    replace (n + 1 - 1) with n by lia.
    split; [set_solver|]. split; [reflexivity|]. split.
    + intros k Hk. exact (pdf_page_lookup _ _ _ n ds _ _ k _ Hlen Hk).
    + eexists. apply lookup_insert_eq.
Qed.

(* ------------------------------------------------------------------ *)
(** ** What a run may overwrite *)

Lemma stamped_widen E out lo hi lo' hi' p :
  stamped E out lo hi p -> lo' <= lo -> hi <= hi' -> stamped E out lo' hi' p.
Proof. intros (i & s & Hi & Hp) ? ?. exists i, s. split; [lia|done]. Qed.

Lemma grows_same_files E out w w' :
  files w' = files w -> ticks w <= ticks w' -> grows E out w w'.
Proof. intros Hf Ht. split; [done|]. rewrite Hf. split; [done|auto]. Qed.

Lemma grows_trans E out w1 w2 w3 :
  grows E out w1 w2 -> grows E out w2 w3 -> grows E out w1 w3.
Proof.
  intros (Ht12 & Hs12 & Hk12) (Ht23 & Hs23 & Hk23).
  split; [lia|]. split; [|auto].
  intros p Hp.
  destruct (decide (files w3 !! p = files w2 !! p)) as [Heq|Hne].
  - rewrite Heq in Hp. eapply stamped_widen; [apply Hs12; done | lia | lia].
  - eapply stamped_widen; [apply Hs23; done | lia | lia].
Qed.

Lemma generate_frame E present mode prompt img w r w' :
  generate E present mode prompt img w = (r, w') -> files w' = files w /\ ticks w' = ticks w.
Proof.
  unfold generate, bind, save_sidecar, post, raise, ret.
  destruct present as [[|]|]; simpl; [|intros H; injection H as _ <-; done..].
  destruct mode as [m|]; simpl; [|intros H; injection H as _ <-; done].
  destruct (jpeg_saveable m); simpl; [|intros H; injection H as _ <-; done].
  destruct (request_result _); simpl; intros H; injection H as _ <-; done.
Qed.

Lemma generate_ok_inv E present mode prompt img w d w' :
  generate E present mode prompt img w = (Ok d, w') ->
  request_result (http E (calls w) prompt img) = Ok d /\
  files w' = files w /\ ticks w' = ticks w /\ calls w' = S (calls w).
Proof.
  unfold generate, bind, save_sidecar, post, raise, ret.
  destruct present as [[|]|]; simpl; try discriminate.
  destruct mode as [m|]; simpl; [|discriminate].
  destruct (jpeg_saveable m); simpl; [|discriminate].
  destruct (request_result _) eqn:Hd; simpl; intros H; injection H as -> <-; done.
Qed.

Lemma generate_err_kind E present mode prompt img w e w' :
  generate E present mode prompt img w = (Err e, w') -> (e = NotFound <-> present = None).
Proof.
  unfold generate, bind, save_sidecar, post, raise, ret.
  destruct present as [[|]|]; simpl.
  - destruct mode as [m|]; simpl; [|intros H; injection H as <- _; split; discriminate].
    destruct (jpeg_saveable m); simpl; [|intros H; injection H as <- _; split; discriminate].
    unfold request_result.
    destruct (http E (calls w) prompt img) as [|st [|[|]|]]; simpl;
      destruct (raises_for_status st) || idtac; simpl; intros H; inversion H; subst;
      split; discriminate.
  - intros H. injection H as <- _. split; discriminate.
  - intros H. injection H as <- _. done.
Qed.

Lemma ends_with_app ext s : Str.ends_with ext (s +:+ ext) = true.
Proof.
  assert (Hl : forall t u, Strings.String.length (t +:+ u) =
                          Strings.String.length t + Strings.String.length u).
  { induction t as [|c t IH]; intros u; simpl; [done|by rewrite IH]. }
  assert (Hs : forall t u, Strings.String.substring (Strings.String.length t)
                            (Strings.String.length u) (t +:+ u) = u).
  { induction t as [|c t IH]; intros u; simpl.
    - induction u as [|c u IH]; simpl; [done|by rewrite IH].
    - apply IH. }
  unfold Str.ends_with. rewrite Hl.
  replace (Strings.String.length s + Strings.String.length ext - Strings.String.length ext)
    with (Strings.String.length s) by lia.
  rewrite Hs, String.eqb_refl. apply andb_true_intro. split; [|done].
  apply Nat.leb_le. lia.
Qed.

Lemma process_image_grows E image_path output_dir prompt w r w' :
  process_image E image_path output_dir prompt w = (r, w') ->
  grows E output_dir w w' /\
  (forall o, r = Ok o -> stamped E output_dir (ticks w) (ticks w') o /\ is_Some (files w' !! o)).
Proof.
  intros H. destruct r as [o|e].
  - pose proof H as H'. apply process_image_ok in H' as (-> & [d Hf] & Ht).
    assert (Hst : stamped E output_dir (ticks w) (ticks w')
                    (image_output output_dir (Str.stem (name image_path)) (now E (ticks w)))).
    { exists (ticks w), (Str.stem (name image_path)). split; [lia|by left]. }
    split; [split; [lia|split]|].
    + intros p Hp. rewrite Hf in Hp.
      destruct (decide (p = image_output output_dir (Str.stem (name image_path))
                              (now E (ticks w)))) as [->|Hne]; [done|].
      by rewrite lookup_insert_ne in Hp by congruence.
    + intros p Hp. rewrite Hf. rewrite lookup_insert. case_decide; [done|exact Hp].
    + intros o Ho. injection Ho as <-. split; [done|]. rewrite Hf, lookup_insert_eq. done.
  - unfold process_image, bind in H.
    destruct (generate E (kind_of E image_path) (image_mode E image_path) prompt image_path w) as [[d|e'] w1] eqn:Hg.
    + apply generate_frame in Hg as [Hf Ht].
      unfold read_clock, bind, write, ret in H. simpl in H. discriminate.
    + injection H as _ <-. apply generate_frame in Hg as [Hf Ht].
      split; [apply grows_same_files; [done|lia]|]. discriminate.
Qed.

Lemma process_pages_frame E pdf_path pdir ts prompt imgs : forall k outs descs w r w',
  process_pages E pdf_path pdir ts prompt k imgs outs descs w = (r, w') ->
  ticks w' = ticks w /\
  (forall p, files w' !! p <> files w !! p -> exists x, p = pdir ++ [x]) /\
  (forall p, is_Some (files w !! p) -> is_Some (files w' !! p)).
Proof.
  induction imgs as [|i rest IH]; intros k outs descs w r w' H; cbn [process_pages] in H.
  - injection H as _ <-. split; [done|]. split; [done|auto].
  - unfold bind at 1 in H.
    destruct (generate E (Some File) (Some "RGB") prompt i w) as [[d|e] w1] eqn:Hg.
    + apply generate_frame in Hg as [Hf1 Ht1].
      unfold bind, write in H. simpl in H.
      apply IH in H as (Ht & Hs & Hk). simpl in Ht, Hs, Hk.
      split; [congruence|]. split.
      * intros p Hp.
        destruct (decide (files w' !! p = <[page_output pdir k := PageRecord k (name pdf_path) ts d]>
                                            (files w1) !! p)) as [Heq|Hne]; [|by apply Hs].
        rewrite Heq, Hf1 in Hp. rewrite lookup_insert in Hp.
        case_decide as Hpk; [|done]. subst p. by eexists.
      * intros p Hp. apply Hk. rewrite Hf1, lookup_insert. case_decide; [done|exact Hp].
    + injection H as _ <-. apply generate_frame in Hg as [Hf1 Ht1].
      rewrite Hf1. split; [done|]. split; [done|auto].
Qed.

Lemma process_pdf_grows E pdf_path output_dir prompt w r w' :
  process_pdf E pdf_path output_dir prompt w = (r, w') ->
  grows E output_dir w w' /\
  (forall outs, r = Ok outs ->
     Forall (fun p => stamped E output_dir (ticks w) (ticks w') p /\ is_Some (files w' !! p)) outs).
Proof.
  intros H.
  set (s := Str.stem (name pdf_path)).
  set (pdir := pdf_output_dir output_dir s (now E (ticks w))).
  assert (Hpd : forall x, stamped E output_dir (ticks w) (S (ticks w)) (pdir ++ [x])).
  { intros x. exists (ticks w), s. split; [lia|]. right. by exists x. }
  split.
  - unfold process_pdf, bind, read_clock, mkdir, in_tempdir, convert_from_path in H. simpl in H.
    destruct (rasterize E pdf_path) as [n|]; simpl in H.
    + fold s pdir in H.
      match type of H with
      | context [process_pages ?E ?a ?b ?c ?d ?k ?imgs ?o ?ds ?w0] =>
          destruct (process_pages E a b c d k imgs o ds w0) as [[res|e] w1] eqn:Hp
      end.
      * apply process_pages_frame in Hp as (Ht & Hs & Hk). simpl in Ht, Hs, Hk.
        unfold write, ret in H. injection H as _ <-. unfold grows. simpl.
        split; [lia|]. split.
        -- intros p Hp. rewrite lookup_insert in Hp. case_decide as Hc.
           ++ subst p. rewrite Ht. apply Hpd.
           ++ apply Hs in Hp as [x ->]. rewrite Ht. apply Hpd.
        -- intros p Hp. rewrite lookup_insert. case_decide; [done|auto].
      * apply process_pages_frame in Hp as (Ht & Hs & Hk). simpl in Ht, Hs, Hk.
        injection H as _ <-. unfold grows. simpl.
        split; [lia|]. split; [|auto].
        intros p Hp. apply Hs in Hp as [x ->]. rewrite Ht. apply Hpd.
    + injection H as _ <-. apply grows_same_files; simpl; [done|lia].
  - intros outs ->. pose proof H as H'.
    apply process_pdf_success_inv in H' as (n & ds & Hn & Hreq).
    pose proof (request_all_length _ _ _ _ _ Hreq) as Hlen.
    rewrite length_map, length_seq in Hlen.
    rewrite (process_pdf_ok E pdf_path output_dir prompt w n ds Hn Hreq) in H.
    injection H as <- <-. simpl. fold s pdir.
    apply Forall_app. split.
    + apply Forall_forall. intros p Hp.
      apply elem_of_map_page in Hp as (j & Hj & ->).
      split; [apply Hpd|].
      destruct (pdf_page_lookup pdir (name pdf_path) (now E (ticks w)) n ds (files w) s j
                  (CombinedRecord (name pdf_path) (now E (ticks w)) n
                     (zip (map pretty (seq 1 n)) ds)) Hlen ltac:(lia)) as [d Hd].
      rewrite Hd. by eexists.
    + constructor; [|done]. split; [apply Hpd|]. rewrite lookup_insert_eq. by eexists.
Qed.

Lemma recorded_grows E out lo w w' p :
  recorded E out lo w p -> grows E out w w' -> recorded E out lo w' p.
Proof.
  intros [Hs Hk] (Ht & _ & Hk'). split; [|auto].
  eapply stamped_widen; [exact Hs|lia|lia].
Qed.

Lemma run_pdfs_grows E out prompt lo fs : forall acc w r w',
  run_pdfs E fs out prompt acc w = (r, w') ->
  lo <= ticks w -> Forall (recorded E out lo w) acc ->
  grows E out w w' /\ (forall o, r = Ok o -> Forall (recorded E out lo w') o).
Proof.
  induction fs as [|f rest IH]; intros acc w r w' H Hlo Hacc; cbn [run_pdfs] in H.
  - injection H as <- <-. split; [apply grows_same_files; [done|lia]|].
    by intros o [= <-].
  - unfold bind at 1 in H.
    destruct (process_pdf E f out prompt w) as [r1 w1] eqn:Hp.
    apply process_pdf_grows in Hp as [Hg1 Hr1].
    destruct r1 as [outs|e].
    + assert (Hlo1 : lo <= ticks w1) by (destruct Hg1; lia).
      apply IH in H as [Hg2 Hr2]; [|done|].
      * split; [by eapply grows_trans|done].
      * apply Forall_app. split.
        -- eapply Forall_impl; [exact Hacc|]. intros p Hp. by eapply recorded_grows.
        -- eapply Forall_impl; [apply Hr1; done|]. intros p [Hs Hk]. split; [|done].
           eapply stamped_widen; [exact Hs|lia|lia].
    + injection H as <- <-. split; [done|discriminate].
Qed.

Lemma run_images_grows E out prompt lo fs : forall acc w r w',
  run_images E fs out prompt acc w = (r, w') ->
  lo <= ticks w -> Forall (recorded E out lo w) acc ->
  grows E out w w' /\ (forall o, r = Ok o -> Forall (recorded E out lo w') o).
Proof.
  induction fs as [|f rest IH]; intros acc w r w' H Hlo Hacc; cbn [run_images] in H.
  - injection H as <- <-. split; [apply grows_same_files; [done|lia]|].
    by intros o [= <-].
  - unfold bind at 1 in H.
    destruct (process_image E f out prompt w) as [r1 w1] eqn:Hp.
    apply process_image_grows in Hp as [Hg1 Hr1].
    destruct r1 as [o1|e].
    + assert (Hlo1 : lo <= ticks w1) by (destruct Hg1; lia).
      apply IH in H as [Hg2 Hr2]; [|done|].
      * split; [by eapply grows_trans|done].
      * apply Forall_app. split.
        -- eapply Forall_impl; [exact Hacc|]. intros p Hp. by eapply recorded_grows.
        -- constructor; [|done]. destruct (Hr1 o1 eq_refl) as [Hs Hk]. split; [|done].
           eapply stamped_widen; [exact Hs|lia|lia].
    + injection H as <- <-. split; [done|discriminate].
Qed.

Lemma process_input_path_grows E input_path output_dir prompt w r w' :
  process_input_path E input_path output_dir prompt w = (r, w') ->
  grows E output_dir w w' /\
  (forall o, r = Ok o -> Forall (recorded E output_dir (ticks w) w') o).
Proof.
  unfold process_input_path, bind at 1, mkdir. simpl.
  set (w0 := {| files := files w; dirs := _; ticks := ticks w; calls := calls w; sidecars := sidecars w |}).
  assert (G0 : forall w', grows E output_dir w0 w' -> grows E output_dir w w').
  { intros w2 (Ht & Hs & Hk). split; [exact Ht|]. split; [exact Hs|exact Hk]. }
  intros H.
  destruct (kind_of E input_path) as [[|]|].
  - destruct (String.eqb _ ".pdf").
    + apply process_pdf_grows in H as [Hg Hr]. split; [auto|].
      intros o Ho. eapply Forall_impl; [apply Hr, Ho|]. intros p [Hs Hk]. by split.
    + destruct (is_image_suffix _).
      * unfold bind at 1 in H.
        destruct (process_image E input_path output_dir prompt w0) as [r1 w1] eqn:Hp.
        apply process_image_grows in Hp as [Hg Hr].
        destruct r1 as [o1|e]; injection H as <- <-.
        -- split; [auto|]. intros o [= <-]. constructor; [|done].
           destruct (Hr o1 eq_refl) as [Hs Hk]. by split.
        -- split; [auto|discriminate].
      * injection H as <- <-. split; [apply G0, grows_same_files; [done|lia]|].
        by intros o [= <-].
  - unfold bind at 1 in H.
    destruct (run_pdfs E _ output_dir prompt [] w0) as [r1 w1] eqn:Hp.
    apply (run_pdfs_grows E output_dir prompt (ticks w)) in Hp as [Hg1 Hr1];
      [|simpl; lia|constructor].
    destruct r1 as [o1|e].
    + apply (run_images_grows E output_dir prompt (ticks w)) in H as [Hg2 Hr2];
        [|destruct Hg1; simpl in *; lia|by apply Hr1].
      split; [apply G0; by eapply grows_trans|exact Hr2].
    + injection H as <- <-. split; [auto|discriminate].
  - injection H as <- <-. split; [apply G0, grows_same_files; [done|lia]|discriminate].
Qed.

Lemma stamped_overlap E out lo hi lo' hi' p :
  (forall i, lo <= i < hi -> Strings.String.length (now E i) = 15) ->
  (forall j, lo' <= j < hi' -> Strings.String.length (now E j) = 15) ->
  stamped E out lo hi p -> stamped E out lo' hi' p ->
  exists i j, lo <= i < hi /\ lo' <= j < hi' /\ now E i = now E j.
Proof.
  intros Hl Hl' (i & s & Hi & Hp) (j & s' & Hj & Hp').
  assert (Hlen : Strings.String.length (now E i) = Strings.String.length (now E j)).
  { rewrite Hl, Hl'; done. }
  exists i, j. split; [done|]. split; [done|].
  destruct Hp as [->|[x ->]], Hp' as [Hq|[x' Hq]].
  - by apply image_output_inj in Hq as [_ ->].
  - by apply image_ne_pdf_entry in Hq.
  - symmetry in Hq. by apply image_ne_pdf_entry in Hq.
  - by apply pdf_entry_inj in Hq as (_ & -> & _).
Qed.

(** C5 (code bug): two consecutive runs on the same image within one
    second write the same path, the timestamp meant to make the file name
    unique being the same; the second run replaces the record of the
    first, which is then gone, and only one record is left. *)
Lemma rerun_same_second_overwrites :
  let run1 := process_input_path rerun_env ["in"; "sub"; "photo.png"] ["out"] "describe"
                empty_world in
  let run2 := process_input_path rerun_env ["in"; "sub"; "photo.png"] ["out"] "describe"
                (snd run1) in
  fst run1 = Ok [["out"; "photo_description_20240615_123000.json"]] /\
  fst run2 = Ok [["out"; "photo_description_20240615_123000.json"]] /\
  files (snd run1) !! ["out"; "photo_description_20240615_123000.json"]
    = Some (ImageRecord "photo.png" "20240615_123000" "d0") /\
  files (snd run2) !! ["out"; "photo_description_20240615_123000.json"]
    = Some (ImageRecord "photo.png" "20240615_123000" "d1") /\
  size (files (snd run2)) = 1.
Proof. vm_compute. repeat split. Qed.

(* ------------------------------------------------------------------ *)
(** ** Substrings *)

Lemma prefix_app_sep n a c b :
  has_char c n = false ->
  Strings.String.prefix n (a +:+ String c b) = Strings.String.prefix n a.
Proof.
  revert n. induction a as [|y a IH]; intros [|x n] Hc; simpl; try done.
  - simpl in Hc. destruct (ascii_dec x c); [done|]. destruct (ascii_dec x c); done.
  - simpl in Hc. destruct (ascii_dec x y) as [->|]; [|done].
    destruct (ascii_dec y c); [done|]. by apply IH.
Qed.

Lemma contains_app_sep n a c b :
  has_char c n = false ->
  contains n (a +:+ String c b) = contains n a || contains n b.
Proof.
  intros Hc. induction a as [|y a IH].
  - pose proof (prefix_app_sep n "" c b Hc) as P.
    change ("" +:+ String c b) with (String c b) in P |- *.
    cbn [contains]. rewrite P.
    destruct (Strings.String.prefix n ""); done.
  - change (String y a +:+ String c b) with (String y (a +:+ String c b)).
    cbn [contains]. rewrite IH.
    pose proof (prefix_app_sep n (String y a) c b Hc) as P.
    change (String y a +:+ String c b) with (String y (a +:+ String c b)) in P.
    rewrite P.
    destruct (Strings.String.prefix n (String y a)), (contains n a); done.
Qed.

Lemma contains_nil_needle s : contains "" s = true.
Proof. destruct s; reflexivity. Qed.

Lemma prefix_app n a b :
  Strings.String.prefix n a = true -> Strings.String.prefix n (a +:+ b) = true.
Proof.
  revert n. induction a as [|y a IH]; intros [|x n] H.
  - by destruct b.
  - done.
  - by destruct (String y a +:+ b).
  - change (String y a +:+ b) with (String y (a +:+ b)). simpl in H |- *.
    destruct (ascii_dec x y); [by apply IH|done].
Qed.

Lemma contains_app_l n a b : contains n a = true -> contains n (a +:+ b) = true.
Proof.
  induction a as [|y a IH]; intros H.
  - destruct n as [|x n]; [apply contains_nil_needle|done].
  - change (String y a +:+ b) with (String y (a +:+ b)). cbn [contains] in *.
    apply orb_true_iff in H as [H|H]; apply orb_true_iff.
    + left. by apply (prefix_app n (String y a) b).
    + right. by apply IH.
Qed.

Lemma contains_app_r n a b : contains n b = true -> contains n (a +:+ b) = true.
Proof.
  induction a as [|y a IH]; intros H; [done|].
  change (String y a +:+ b) with (String y (a +:+ b)). cbn [contains].
  apply orb_true_iff. right. by apply IH.
Qed.

Lemma contains_self_app n b : contains n (n +:+ b) = true.
Proof.
  destruct n as [|x n]; [apply contains_nil_needle|].
  change (String x n +:+ b) with (String x (n +:+ b)). cbn [contains].
  apply orb_true_iff. left. cbn [Strings.String.prefix].
  destruct (ascii_dec x x); [|done]. apply (prefix_app n n b).
  clear. induction n as [|y n IH]; simpl; [done|]. destruct (ascii_dec y y); done.
Qed.

Lemma contains_empty_hay n : n <> "" -> contains n "" = false.
Proof. destruct n; done. Qed.

Lemma contains_app_chars n m : m <> "" ->
  (forall c, has_char c m = true -> has_char c n = false) ->
  forall a b, contains n (a +:+ m +:+ b) = contains n a || contains n b.
Proof.
  intros Hm Hc. induction m as [|c m IH]; [done|]. intros a b.
  change (String c m +:+ b) with (String c (m +:+ b)).
  rewrite contains_app_sep by (apply Hc; simpl; by destruct (ascii_dec c c)).
  f_equal. destruct m as [|c' m']; [done|].
  destruct n as [|x n]; [by rewrite !contains_nil_needle|].
  transitivity (contains (String x n) ("" +:+ String c' m' +:+ b)); [reflexivity|].
  rewrite IH; [reflexivity|done|].
  intros d Hd. apply Hc. simpl. destruct (ascii_dec c d); [done|exact Hd].
Qed.

Lemma contains_str_path n p :
  has_char "/" n = false -> contains n "." = false ->
  contains n (str_path p) = existsb (contains n) p.
Proof.
  intros Hs Hd. induction p as [|x [|y r] IH]; [done| |].
  - simpl. by destruct (contains n x).
  - change (str_path (x :: y :: r)) with (x +:+ String "/" (str_path (y :: r))).
    rewrite contains_app_sep by done. rewrite IH. done.
Qed.

Lemma pretty_N_go_chars x : forall s c,
  has_char c (pretty_N_go x s) = true -> has_char c s = true \/ exists d, c = pretty_N_char d.
Proof.
  induction (N.lt_wf_0 x) as [x _ IH]; intros s c H.
  destruct (decide (x = 0)%N) as [->|Hx].
  - rewrite pretty_N_go_0 in H. by left.
  - rewrite pretty_N_go_step in H by lia.
    destruct (IH (x `div` 10)%N ltac:(apply N.div_lt; lia) _ _ H) as [H'|H']; [|by right].
    simpl in H'. destruct (ascii_dec (pretty_N_char (x `mod` 10)) c) as [<-|]; [right; eauto|by left].
Qed.

Lemma pretty_N_go_nonempty x : forall s, s <> "" -> pretty_N_go x s <> "".
Proof.
  induction (N.lt_wf_0 x) as [x _ IH]; intros s Hs.
  destruct (decide (x = 0)%N) as [->|Hx].
  - by rewrite pretty_N_go_0.
  - rewrite pretty_N_go_step by lia. apply IH; [apply N.div_lt; lia|done].
Qed.

Lemma pretty_nat_chars (k : nat) c :
  has_char c (pretty k) = true -> exists d, c = pretty_N_char d.
Proof.
  change (pretty k) with (pretty (N.of_nat k)). unfold pretty at 1, pretty_N. case_decide.
  - cbn [has_char]. destruct (ascii_dec "0" c) as [<-|]; [|done]. intros _. by exists 0%N.
  - intros Hc. by destruct (pretty_N_go_chars _ _ _ Hc).
Qed.

Lemma pretty_nat_nonempty (k : nat) : pretty k <> "".
Proof.
  change (pretty k) with (pretty (N.of_nat k)). unfold pretty at 1, pretty_N.
  case_decide; [done|].
  rewrite pretty_N_go_step by lia. apply pretty_N_go_nonempty. done.
Qed.

Lemma digits_not_in_markers d :
  has_char (pretty_N_char d) "_description_" = false /\
  has_char (pretty_N_char d) "_all_descriptions.json" = false.
Proof.
  destruct d as [|p]; [split; reflexivity|].
  do 4 (try (destruct p as [p|p|]; try (split; reflexivity))).
Qed.

Lemma page_name_markers (k : nat) :
  contains "_description_" ("page_" +:+ pretty k +:+ "_description.json") = false /\
  contains "_all_descriptions.json" ("page_" +:+ pretty k +:+ "_description.json") = false.
Proof.
  split; rewrite contains_app_chars; try reflexivity; try apply pretty_nat_nonempty;
    intros c Hc; destruct (pretty_nat_chars k c Hc) as [d ->]; apply digits_not_in_markers.
Qed.

Lemma marker_free_segments out :
  forallb marker_free out = true ->
  existsb (contains "_description_") out = false /\
  existsb (contains "_all_descriptions.json") out = false.
Proof.
  induction out as [|x r IH]; [done|]. simpl. intros H.
  apply andb_true_iff in H as [Hx Hr]. unfold marker_free in Hx.
  apply andb_true_iff in Hx as [H1 H2]. apply negb_true_iff in H1, H2.
  rewrite H1, H2. by apply IH.
Qed.

Lemma contains_marker_path n p :
  n = "_description_" \/ n = "_all_descriptions.json" ->
  contains n (str_path p) = existsb (contains n) p.
Proof. intros [-> | ->]; apply contains_str_path; reflexivity. Qed.

(** The test [f not in pdf_outputs] is the same as
    ["_all_descriptions.json" not in str(f)] on the list itself. *)
Lemma image_outputs_alt L :
  image_outputs L =
  List.filter (fun f => contains "_description_" (str_path f) &&
                        negb (contains "_all_descriptions.json" (str_path f))) L.
Proof.
  unfold image_outputs, pdf_outputs. apply filter_ext_in. intros x Hx.
  f_equal. f_equal.
  destruct (contains "_all_descriptions.json" (str_path x)) eqn:E.
  - apply bool_decide_eq_true. apply list_elem_of_In, filter_In. auto.
  - apply bool_decide_eq_false. intros H. apply list_elem_of_In, filter_In in H.
    destruct H; congruence.
Qed.

Lemma filter_all_false {A} (f : A -> bool) l :
  (forall x, In x l -> f x = false) -> List.filter f l = [].
Proof.
  induction l as [|x l IH]; intros H; [done|]. simpl.
  rewrite (H x (or_introl eq_refl)). apply IH. intros y Hy. apply H. by right.
Qed.

Lemma page_paths_markers out s t n p :
  forallb marker_free out = true -> marker_free (s +:+ "_" +:+ t) = true ->
  In p (map (page_output (pdf_output_dir out s t)) (seq 1 n)) ->
  contains "_description_" (str_path p) = false /\
  contains "_all_descriptions.json" (str_path p) = false.
Proof.
  intros Hout Hd Hp. apply in_map_iff in Hp as (k & <- & _).
  destruct (marker_free_segments out Hout) as [O1 O2].
  unfold marker_free in Hd. apply andb_true_iff in Hd as [D1 D2].
  apply negb_true_iff in D1, D2. destruct (page_name_markers k) as [P1 P2].
  unfold page_output, pdf_output_dir.
  rewrite !contains_marker_path by auto. rewrite !existsb_app. cbn [existsb].
  rewrite O1, O2, D1, D2, P1, P2. done.
Qed.

Lemma combined_path_marker out s t :
  contains "_all_descriptions.json"
    (str_path (combined_output (pdf_output_dir out s t) s)) = true.
Proof.
  rewrite contains_marker_path by auto. unfold combined_output.
  rewrite existsb_app. cbn [existsb].
  rewrite contains_app_r; [by rewrite !orb_true_r|reflexivity].
Qed.

Lemma image_path_markers out s t :
  forallb marker_free out = true ->
  contains "_all_descriptions.json" (s +:+ "_description_" +:+ t +:+ ".json") = false ->
  contains "_description_" (str_path (image_output out s t)) = true /\
  contains "_all_descriptions.json" (str_path (image_output out s t)) = false.
Proof.
  intros Hout Hn. destruct (marker_free_segments out Hout) as [O1 O2].
  unfold image_output. rewrite !contains_marker_path by auto. rewrite !existsb_app.
  cbn [existsb].
  rewrite O2, Hn. split; [|done].
  rewrite (contains_app_r _ s _ (contains_self_app _ _)). by rewrite orb_true_r.
Qed.

Lemma artifact_counts out a :
  forallb marker_free out = true -> artifact_clean a = true ->
  length (List.filter (fun f => contains "_description_" (str_path f) &&
            negb (contains "_all_descriptions.json" (str_path f))) (artifact_paths out a))
    = (if is_image_artifact a then 1 else 0) /\
  length (List.filter (fun f => contains "_all_descriptions.json" (str_path f))
            (artifact_paths out a))
    = (if is_image_artifact a then 0 else 1).
Proof.
  intros Hout Ha. destruct a as [s t|s t n]; simpl in Ha |- *.
  - apply negb_true_iff in Ha. destruct (image_path_markers out s t Hout Ha) as [-> ->].
    done.
  - rewrite !List.filter_app, !length_app.
    do 2 rewrite (filter_all_false _ (map (page_output (pdf_output_dir out s t)) (seq 1 n)))
      by (intros x Hx; destruct (page_paths_markers out s t n x Hout Ha Hx) as [H1 H2];
          rewrite ?H1, ?H2; done).
    simpl. rewrite combined_path_marker, andb_false_r. done.
Qed.

Lemma filter_all_true {A} (f : A -> bool) l :
  (forall x, In x l -> f x = true) -> List.filter f l = l.
Proof.
  induction l as [|x l IH]; intros H; [done|]. simpl.
  rewrite (H x (or_introl eq_refl)), IH; [done|]. intros y Hy. apply H. by right.
Qed.

(* ------------------------------------------------------------------ *)
(** ** The summary counts *)

Lemma summary_of_artifacts out arts :
  forallb marker_free out = true -> forallb artifact_clean arts = true ->
  summary (concat (map (artifact_paths out) arts)) =
    (length (List.filter is_image_artifact arts),
     length (List.filter (fun a => negb (is_image_artifact a)) arts)).
Proof.
  intros Hout Hclean. unfold summary. rewrite image_outputs_alt. unfold pdf_outputs.
  induction arts as [|a r IH]; [done|].
  simpl in Hclean. apply andb_true_iff in Hclean as [Ha Hr].
  specialize (IH Hr). injection IH as IH1 IH2.
  destruct (artifact_counts out a Hout Ha) as [C1 C2].
  cbn [map concat]. rewrite !List.filter_app, !length_app, C1, C2, IH1, IH2.
  destruct a; reflexivity.
Qed.

(** The summary [main] logs and [app.py] displays counts one image
    description file per processed image and one PDF description file per
    processed PDF, page records in neither count, as long as the output
    directory's segments, the PDF output folders' names and the image
    records' names do not carry the markers it searches for. *)
Theorem summary_counts_artifacts out arts :
  forallb marker_free out = true -> forallb artifact_clean arts = true ->
  summary (concat (map (artifact_paths out) arts)) =
    (length (List.filter is_image_artifact arts),
     length (List.filter (fun a => negb (is_image_artifact a)) arts)).
Proof. exact (summary_of_artifacts out arts). Qed.

Lemma summary_counts_artifacts_witness :
  forallb marker_free ["out"] = true /\
  forallb artifact_clean [PdfArtifact "deck" "20240615_123000" 2;
                          ImageArtifact "photo" "20240615_123001"] = true /\
  summary (concat (map (artifact_paths ["out"])
             [PdfArtifact "deck" "20240615_123000" 2;
              ImageArtifact "photo" "20240615_123001"])) = (1, 1).
Proof.
  split; [reflexivity|]. split; [reflexivity|].
  apply (summary_counts_artifacts ["out"]
           [PdfArtifact "deck" "20240615_123000" 2; ImageArtifact "photo" "20240615_123001"]);
    reflexivity.
Defined.

(** A PDF whose output path, the output directory or the folder
    [{stem}_{timestamp}], contains ["_description_"] (a stem ending in
    ["_description"] suffices, and so does an output directory named like
    [out_description_x]) has every page record counted as an image
    description file, provided neither holds ["_all_descriptions.json"]:
    its [n] pages give the counts [(n, 1)] instead of [(0, 1)]. *)
Theorem summary_counts_pages_as_images out s t n :
  contains "_all_descriptions.json" (str_path out) = false ->
  contains "_all_descriptions.json" (s +:+ "_" +:+ t) = false ->
  contains "_description_" (str_path out) || contains "_description_" (s +:+ "_" +:+ t) = true ->
  summary (artifact_paths out (PdfArtifact s t n)) = (n, 1).
Proof.
  intros O2 D2 D1. rewrite contains_marker_path in O2, D1 by auto.
  unfold summary. rewrite image_outputs_alt. unfold pdf_outputs, artifact_paths.
  rewrite !List.filter_app, !length_app.
  assert (Hpg : forall x, In x (map (page_output (pdf_output_dir out s t)) (seq 1 n)) ->
            contains "_description_" (str_path x) = true /\
            contains "_all_descriptions.json" (str_path x) = false).
  { intros x Hx. apply in_map_iff in Hx as (k & <- & _).
    destruct (page_name_markers k) as [P1 P2].
    unfold page_output, pdf_output_dir.
    rewrite !contains_marker_path by auto. rewrite !existsb_app. cbn [existsb].
    rewrite O2, D2, P2. split; [|done].
    apply orb_true_iff in D1 as [-> | ->]; [done|]. by rewrite orb_true_r. }
  rewrite (filter_all_true _ (map (page_output (pdf_output_dir out s t)) (seq 1 n)))
    by (intros x Hx; destruct (Hpg x Hx) as [-> ->]; done).
  rewrite (filter_all_false _ (map (page_output (pdf_output_dir out s t)) (seq 1 n)))
    by (intros x Hx; destruct (Hpg x Hx) as [_ ->]; done).
  cbn [List.filter]. rewrite combined_path_marker, andb_false_r.
  rewrite length_map, length_seq. simpl. f_equal. lia.
Qed.

Lemma summary_counts_pages_as_images_witness :
  contains "_all_descriptions.json" (str_path ["out_description_x"]) = false /\
  contains "_all_descriptions.json" ("deck" +:+ "_" +:+ "20240615_123000") = false /\
  contains "_description_" (str_path ["out_description_x"]) ||
    contains "_description_" ("deck" +:+ "_" +:+ "20240615_123000") = true /\
  summary (artifact_paths ["out_description_x"] (PdfArtifact "deck" "20240615_123000" 2))
    = (2, 1).
Proof.
  split; [reflexivity|]. split; [reflexivity|]. split; [reflexivity|].
  apply summary_counts_pages_as_images; reflexivity.
Defined.

(* ------------------------------------------------------------------ *)
(** ** The availability check of [OllamaClient] *)

(** The constructor raises [ConnectionError] exactly when the GET of
    [/api/tags] fails in transport, answers a status other than 200 (a
    201 or 204 included), or answers 200 with a body that is not JSON;
    a JSON body never leads to [ConnectionError]. *)
Theorem check_model_connection_error model o :
  check_model_availability model o = InitErr InitConnectionError <->
  o = TagsTransportFailure \/
  exists status body, o = TagsResponse status body /\ (status <> 200%Z \/ body = None).
Proof.
  destruct o as [|status body]; simpl.
  - split; [by left|done].
  - destruct (Z.eqb_spec status 200) as [->|Hs]; simpl.
    + split.
      * destruct body as [[]|]; repeat case_match; try discriminate.
        intros _. right. eauto.
      * intros [H|(st & b & Heq & Hb)]; [done|]. injection Heq as <- <-.
        destruct Hb as [Hb | ->]; done.
    + split; [intros _; right; eauto|done].
Qed.

Lemma entry_names_named es names :
  Forall2 (fun e n => exists kv', e = JObj kv' /\ jget kv' "name" = Some (JStr n)) es names ->
  entry_names es = Some (map (fun n => Some (JStr n)) names).
Proof.
  induction 1 as [|e n es names (kv' & -> & Hn) _ IH]; [done|].
  simpl. rewrite IH, Hn. done.
Qed.

Lemma name_is_listed model names :
  existsb (name_is model) (map (fun n => Some (JStr n)) names) = bool_decide (model ∈ names).
Proof.
  induction names as [|n names IH]; simpl.
  - reflexivity.
  - rewrite IH. destruct (String.eqb_spec model n) as [->|Hne]; simpl.
    + symmetry. apply bool_decide_eq_true_2. by left.
    + apply bool_decide_ext. rewrite elem_of_cons. naive_solver.
Qed.

Lemma str_values_strs names :
  str_values (map (fun n => Some (JStr n)) names) = Some names.
Proof. induction names as [|n names IH]; simpl; [done|]. by rewrite IH. Qed.

(** When [/api/tags] answers 200 with a JSON object whose ["models"] is a
    list of objects that all have a string ["name"] (or has no
    ["models"] key at all), the constructor returns normally: silently
    when the configured model is among the names, and otherwise after two
    warnings, the first listing the available names joined by [", "]. *)
Theorem check_model_listed_names model kv es names :
  (jget kv "models" = Some (JArr es) \/ (jget kv "models" = None /\ es = [])) ->
  Forall2 (fun e n => exists kv', e = JObj kv' /\ jget kv' "name" = Some (JStr n)) es names ->
  check_model_availability model (TagsResponse 200 (Some (JObj kv))) =
    if bool_decide (model ∈ names) then InitOk []
    else InitOk [("Model '" +:+ model +:+ "' not found in Ollama. Available models: " +:+
                  Strings.String.concat ", " names);
                 ("You may need to run: ollama pull " +:+ model)].
Proof.
  intros Hm Hes. unfold check_model_availability. cbn [Z.eqb negb].
  assert (Hit : py_iter (default (JArr []) (jget kv "models")) = Some es).
  { destruct Hm as [-> | [-> ->]]; reflexivity. }
  rewrite Hit, (entry_names_named es names Hes), name_is_listed.
  case_bool_decide; [done|]. by rewrite str_values_strs.
Qed.

Lemma check_model_listed_names_witness :
  let kv := [("models", JArr [JObj [("name", JStr "llava:latest"); ("size", JNum 4)]])] in
  (jget kv "models" = Some (JArr [JObj [("name", JStr "llava:latest"); ("size", JNum 4)]]) \/
   (jget kv "models" = None /\ [JObj [("name", JStr "llava:latest"); ("size", JNum 4)]] = [])) /\
  Forall2 (fun e n => exists kv', e = JObj kv' /\ jget kv' "name" = Some (JStr n))
    [JObj [("name", JStr "llava:latest"); ("size", JNum 4)]] ["llava:latest"] /\
  check_model_availability "granite3.2-vision:latest" (TagsResponse 200 (Some (JObj kv))) =
    InitOk ["Model 'granite3.2-vision:latest' not found in Ollama. Available models: llava:latest";
            "You may need to run: ollama pull granite3.2-vision:latest"].
Proof.
  intros kv.
  assert (H1 : jget kv "models" = Some (JArr [JObj [("name", JStr "llava:latest"); ("size", JNum 4)]]) \/
               (jget kv "models" = None /\ [JObj [("name", JStr "llava:latest"); ("size", JNum 4)]] = []))
    by (left; reflexivity).
  assert (H2 : Forall2 (fun e n => exists kv', e = JObj kv' /\ jget kv' "name" = Some (JStr n))
                 [JObj [("name", JStr "llava:latest"); ("size", JNum 4)]] ["llava:latest"])
    by (constructor; [eexists; split; reflexivity|constructor]).
  split; [exact H1|]. split; [exact H2|].
  rewrite (check_model_listed_names "granite3.2-vision:latest" kv _ _ H1 H2).
  rewrite bool_decide_eq_false_2; [reflexivity|].
  rewrite list_elem_of_singleton. discriminate.
Defined.

Lemma entry_names_objs es :
  Forall (fun e => exists kv', e = JObj kv') es ->
  entry_names es = Some (map (fun e => match e with JObj kv' => jget kv' "name" | _ => None end) es).
Proof.
  induction 1 as [|e es (kv' & ->) _ IH]; [done|]. simpl. by rewrite IH.
Qed.

Lemma name_is_exists model es :
  existsb (name_is model)
    (map (fun e => match e with JObj kv' => jget kv' "name" | _ => None end) es) = true <->
  Exists (fun e => exists kv', e = JObj kv' /\ jget kv' "name" = Some (JStr model)) es.
Proof.
  rewrite existsb_exists, Exists_exists. split.
  - intros (n & Hn & Hm). apply in_map_iff in Hn as (e & <- & He).
    exists e. split; [by apply list_elem_of_In|].
    destruct e as [| | | |l|kv']; try done. exists kv'. split; [done|].
    destruct (jget kv' "name") as [[| | |s| |]|]; try done. simpl in Hm.
    by destruct (String.eqb_spec model s) as [->|].
  - intros (e & He & kv' & -> & Hn). eexists. split.
    + apply in_map_iff. exists (JObj kv'). split; [reflexivity|by apply list_elem_of_In].
    + rewrite Hn. simpl. by apply String.eqb_eq.
Qed.

Lemma str_values_none ns :
  (exists n, In n ns /\ forall s, n <> Some (JStr s)) -> str_values ns = None.
Proof.
  intros (n & Hn & Hs). induction ns as [|m ns IH]; [done|].
  destruct Hn as [->|Hn].
  - destruct n as [[| | |s| |]|]; try done. by destruct (Hs s).
  - simpl. destruct m as [[| | |s| |]|]; try done. by rewrite IH.
Qed.

(** With ["models"] a list of objects: an entry whose ["name"] is
    missing or not a string does no harm when another entry names the
    configured model, but when no entry does, building the warning's
    [', '.join] raises [TypeError] and the constructor fails. *)
Theorem check_model_unnamed_entry model kv es :
  jget kv "models" = Some (JArr es) ->
  Forall (fun e => exists kv', e = JObj kv') es ->
  (Exists (fun e => exists kv', e = JObj kv' /\ jget kv' "name" = Some (JStr model)) es ->
   check_model_availability model (TagsResponse 200 (Some (JObj kv))) = InitOk []) /\
  (Exists (fun e => exists kv', e = JObj kv' /\ forall s, jget kv' "name" <> Some (JStr s)) es ->
   ~ Exists (fun e => exists kv', e = JObj kv' /\ jget kv' "name" = Some (JStr model)) es ->
   check_model_availability model (TagsResponse 200 (Some (JObj kv))) = InitErr InitTypeError).
Proof.
  intros Hm Hobj. unfold check_model_availability. cbn [Z.eqb Pos.eqb negb].
  rewrite Hm. cbn [default id py_iter]. rewrite (entry_names_objs es Hobj).
  split.
  - intros Hex. apply name_is_exists in Hex. by rewrite Hex.
  - intros Hbad Hno.
    destruct (existsb (name_is model) _) eqn:E; [by apply name_is_exists in E|].
    rewrite str_values_none; [done|].
    apply Exists_exists in Hbad as (e & He & kv' & -> & Hs).
    exists (jget kv' "name"). split; [|exact Hs].
    apply in_map_iff. exists (JObj kv'). split; [reflexivity|by apply list_elem_of_In].
Qed.

Lemma check_model_unnamed_entry_witness :
  let es := [JObj [("name", JStr "llava:latest")]; JObj [("size", JNum 4)]] in
  let kv := [("models", JArr es)] in
  jget kv "models" = Some (JArr es) /\
  Forall (fun e => exists kv', e = JObj kv') es /\
  ((Exists (fun e => exists kv', e = JObj kv' /\ jget kv' "name" = Some (JStr "llava:latest")) es ->
    check_model_availability "llava:latest" (TagsResponse 200 (Some (JObj kv))) = InitOk []) /\
   (Exists (fun e => exists kv', e = JObj kv' /\ forall s, jget kv' "name" <> Some (JStr s)) es ->
    ~ Exists (fun e => exists kv', e = JObj kv' /\ jget kv' "name" = Some (JStr "llava:latest")) es ->
    check_model_availability "llava:latest" (TagsResponse 200 (Some (JObj kv))) =
      InitErr InitTypeError)).
Proof.
  intros es kv.
  assert (H1 : jget kv "models" = Some (JArr es)) by reflexivity.
  assert (H2 : Forall (fun e => exists kv', e = JObj kv') es)
    by (repeat constructor; eexists; reflexivity).
  split; [exact H1|]. split; [exact H2|].
  exact (check_model_unnamed_entry "llava:latest" kv es H1 H2).
Defined.

(** Other malformed answers with status 200 fail with the exception
    Python raises, never [ConnectionError]: a JSON body that is not an
    object ([AttributeError] on [.get]), a ["models"] value that is
    [null], a boolean or a number ([TypeError]: not iterable), and a
    ["models"] list with an element that is not an object
    ([AttributeError] on [model.get]), even when another element names
    the configured model. *)
Theorem check_model_malformed model :
  (forall v, (forall kv, v <> JObj kv) ->
     check_model_availability model (TagsResponse 200 (Some v)) = InitErr InitAttributeError) /\
  (forall kv v, jget kv "models" = Some v ->
     (v = JNull \/ (exists b, v = JBool b) \/ (exists z, v = JNum z)) ->
     check_model_availability model (TagsResponse 200 (Some (JObj kv))) = InitErr InitTypeError) /\
  (forall kv es, jget kv "models" = Some (JArr es) ->
     Exists (fun e => forall kv', e <> JObj kv') es ->
     check_model_availability model (TagsResponse 200 (Some (JObj kv))) =
       InitErr InitAttributeError).
Proof.
  split; [|split].
  - intros v Hv. destruct v as [| | | | |kv]; try done. by destruct (Hv kv).
  - intros kv v Hm Hv. unfold check_model_availability. cbn [Z.eqb Pos.eqb negb]. rewrite Hm.
    destruct Hv as [-> | [[b ->] | [z ->]]]; reflexivity.
  - intros kv es Hm Hex. unfold check_model_availability. cbn [Z.eqb Pos.eqb negb]. rewrite Hm.
    cbn [default id py_iter].
    assert (entry_names es = None) as ->; [|done].
    clear Hm. induction Hex as [e es He|e es _ IH].
    + destruct e as [| | | | |kv']; try done. by destruct (He kv').
    + simpl. rewrite IH. by destruct e.
Qed.

(* ------------------------------------------------------------------ *)
(** ** What a successful run did, source by source *)

Lemma process_image_art E f out prompt w o w' :
  process_image E f out prompt w = (Ok o, w') ->
  o = image_output out (Str.stem (name f)) (now E (ticks w)) /\
  ticks w' = S (ticks w) /\ calls w' = S (calls w).
Proof.
  unfold process_image, generate, bind, save_sidecar, post, read_clock, write, ret.
  destruct (kind_of E f) as [[|]|]; simpl; try discriminate.
  destruct (image_mode E f) as [m|]; simpl; [|discriminate].
  destruct (jpeg_saveable m); simpl; [|discriminate].
  destruct (request_result (http E (calls w) prompt f)) as [d|e];
    simpl; [|discriminate].
  intros H. injection H as <- <-. simpl. auto.
Qed.

Lemma process_pdf_art E f out prompt w outs w' :
  process_pdf E f out prompt w = (Ok outs, w') ->
  exists n, rasterize E f = Some n /\
    outs = artifact_paths out (PdfArtifact (Str.stem (name f)) (now E (ticks w)) n) /\
    ticks w' = S (ticks w) /\ calls w' = calls w + n.
Proof.
  intros H. pose proof H as H'.
  apply process_pdf_success_inv in H' as (n & ds & Hn & Hreq).
  rewrite (process_pdf_ok E f out prompt w n ds Hn Hreq) in H.
  injection H as <- <-. exists n. simpl. auto.
Qed.

Lemma sum_list_app' (l1 l2 : list nat) : sum_list (l1 ++ l2) = sum_list l1 + sum_list l2.
Proof. induction l1 as [|x r IH]; simpl; lia. Qed.

Lemma stamp_sources_cons t x r :
  stamp_sources t (x :: r) = (t, x) :: stamp_sources (S t) r.
Proof. reflexivity. Qed.

Lemma stamp_sources_app t l1 l2 :
  stamp_sources t (l1 ++ l2) = stamp_sources t l1 ++ stamp_sources (t + length l1) l2.
Proof.
  revert t. induction l1 as [|x r IH]; intros t.
  - by rewrite Nat.add_0_r.
  - rewrite <- app_comm_cons, !stamp_sources_cons, IH. simpl. by rewrite Nat.add_succ_r.
Qed.

Lemma run_pdfs_art E out prompt fs : forall acc w outs w',
  run_pdfs E fs out prompt acc w = (Ok outs, w') ->
  exists arts, outs = acc ++ concat (map (artifact_paths out) arts) /\
    Forall2 (fun '(i, src) a => artifact_of E (now E i) src a)
      (stamp_sources (ticks w) (map (pair false) fs)) arts /\
    ticks w' = ticks w + length fs /\
    calls w' = calls w + sum_list (map artifact_requests arts).
Proof.
  induction fs as [|f rest IH]; intros acc w outs w' H; cbn [run_pdfs] in H.
  - injection H as <- <-. exists []. rewrite app_nil_r. simpl.
    split; [done|]. split; [constructor|lia].
  - unfold bind at 1 in H.
    destruct (process_pdf E f out prompt w) as [[o|e] w1] eqn:Hf; [|discriminate].
    apply IH in H as (arts & -> & Ha & Ht & Hc).
    apply process_pdf_art in Hf as (n & Hn & -> & Ht1 & Hc1).
    exists (PdfArtifact (Str.stem (name f)) (now E (ticks w)) n :: arts).
    split; [cbn [map concat]; by rewrite app_assoc|].
    rewrite map_cons, stamp_sources_cons. rewrite Ht1 in Ha.
    split; [constructor; [done|exact Ha]|].
    cbn [length sum_list map artifact_requests id]. lia.
Qed.

Lemma run_images_art E out prompt fs : forall acc w outs w',
  run_images E fs out prompt acc w = (Ok outs, w') ->
  exists arts, outs = acc ++ concat (map (artifact_paths out) arts) /\
    Forall2 (fun '(i, src) a => artifact_of E (now E i) src a)
      (stamp_sources (ticks w) (map (pair true) fs)) arts /\
    ticks w' = ticks w + length fs /\
    calls w' = calls w + sum_list (map artifact_requests arts).
Proof.
  induction fs as [|f rest IH]; intros acc w outs w' H; cbn [run_images] in H.
  - injection H as <- <-. exists []. rewrite app_nil_r. simpl.
    split; [done|]. split; [constructor|lia].
  - unfold bind at 1 in H.
    destruct (process_image E f out prompt w) as [[o|e] w1] eqn:Hf; [|discriminate].
    apply IH in H as (arts & -> & Ha & Ht & Hc).
    apply process_image_art in Hf as (-> & Ht1 & Hc1).
    exists (ImageArtifact (Str.stem (name f)) (now E (ticks w)) :: arts).
    split; [cbn [map concat artifact_paths]; by rewrite app_assoc|].
    rewrite map_cons, stamp_sources_cons. rewrite Ht1 in Ha.
    split; [constructor; [done|exact Ha]|].
    cbn [length sum_list map artifact_requests id]. lia.
Qed.

Lemma run_artifacts E input_path output_dir prompt w outs w' :
  process_input_path E input_path output_dir prompt w = (Ok outs, w') ->
  exists arts, outs = concat (map (artifact_paths output_dir) arts) /\
    Forall2 (fun '(i, src) a => artifact_of E (now E i) src a)
      (stamp_sources (ticks w) (sources E input_path)) arts /\
    ticks w' = ticks w + length (sources E input_path) /\
    calls w' = calls w + sum_list (map artifact_requests arts).
Proof.
  unfold process_input_path, bind at 1, mkdir, sources. cbv beta iota.
  intros H.
  destruct (kind_of E input_path) as [[|]|].
  - destruct (String.eqb _ ".pdf").
    + apply process_pdf_art in H as (n & Hn & -> & Ht & Hc). simpl in Ht, Hc.
      exists [PdfArtifact (Str.stem (name input_path)) (now E (ticks w)) n].
      split; [simpl; by rewrite app_nil_r|].
      split; [constructor; [done|constructor]|]. simpl. lia.
    + destruct (is_image_suffix _).
      * unfold bind at 1 in H.
        destruct (process_image E input_path output_dir prompt _) as [[o|e] w1] eqn:Hi;
          [|discriminate].
        injection H as <- <-. apply process_image_art in Hi as (-> & Ht & Hc).
        simpl in Ht, Hc.
        exists [ImageArtifact (Str.stem (name input_path)) (now E (ticks w))].
        split; [done|]. split; [constructor; [done|constructor]|]. simpl. lia.
      * injection H as <- <-. exists []. simpl. split; [done|]. split; [constructor|lia].
  - unfold bind at 1 in H.
    destruct (run_pdfs E _ output_dir prompt [] _) as [[o|e] w1] eqn:Hp; [|discriminate].
    apply run_pdfs_art in Hp as (a1 & -> & H1 & Ht1 & Hc1).
    apply run_images_art in H as (a2 & -> & H2 & Ht2 & Hc2).
    simpl in Ht1, Hc1, H1.
    exists (a1 ++ a2). split; [by rewrite map_app, concat_app|].
    rewrite stamp_sources_app, length_map, length_app, !length_map.
    rewrite Ht1 in H2.
    split; [apply Forall2_app; [exact H1|exact H2]|].
    rewrite map_app, sum_list_app'. lia.
  - discriminate.
Qed.

(** A successful [process_input_path] handles its sources in order: the
    [k]-th one (PDFs of the glob first, then images, or the input file
    itself) leaves one artifact stamped with the clock read at tick
    [ticks w + k], a PDF with as many page records as pdf2image returned
    pages; the returned list is the concatenation of the artifacts'
    paths; the run reads the clock once per source and sends one POST per
    image and one per PDF page. *)
Theorem process_input_path_accounting E input_path output_dir prompt w outs w' :
  process_input_path E input_path output_dir prompt w = (Ok outs, w') ->
  exists arts, outs = concat (map (artifact_paths output_dir) arts) /\
    Forall2 (fun '(i, src) a => artifact_of E (now E i) src a)
      (stamp_sources (ticks w) (sources E input_path)) arts /\
    ticks w' = ticks w + length (sources E input_path) /\
    calls w' = calls w + sum_list (map artifact_requests arts).
Proof. exact (run_artifacts E input_path output_dir prompt w outs w'). Qed.

Lemma process_input_path_accounting_witness :
  let r := process_input_path sample_env ["in"] ["out"] "describe" empty_world in
  r = (Ok (match fst r with Ok o => o | Err _ => [] end), snd r) /\
  exists arts,
    match fst r with Ok o => o | Err _ => [] end =
      concat (map (artifact_paths ["out"]) arts) /\
    Forall2 (fun '(i, src) a => artifact_of sample_env (now sample_env i) src a)
      (stamp_sources (ticks empty_world) (sources sample_env ["in"])) arts /\
    ticks (snd r) = ticks empty_world + length (sources sample_env ["in"]) /\
    calls (snd r) = calls empty_world + sum_list (map artifact_requests arts).
Proof.
  intros r.
  assert (H : r = (Ok (match fst r with Ok o => o | Err _ => [] end), snd r))
    by (vm_compute; reflexivity).
  split; [exact H|].
  exact (process_input_path_accounting sample_env ["in"] ["out"] "describe" empty_world
           (match fst r with Ok o => o | Err _ => [] end) (snd r) H).
Defined.

Lemma stamp_sources_filter t srcs (f : bool * path -> bool) :
  length (List.filter (fun x => f (snd x)) (stamp_sources t srcs)) =
  length (List.filter f srcs).
Proof.
  revert t. induction srcs as [|x r IH]; intros t; [done|].
  rewrite stamp_sources_cons. cbn [List.filter snd]. destruct (f x); simpl; by rewrite IH.
Qed.

Lemma artifacts_of_sources E l arts :
  Forall2 (fun '(i, src) a => artifact_of E (now E i) src a) l arts ->
  forallb (fun '(i, src) => source_clean E i src) l = forallb artifact_clean arts /\
  length (List.filter is_image_artifact arts) = length (List.filter (fun x => fst (snd x)) l) /\
  length (List.filter (fun a => negb (is_image_artifact a)) arts) =
    length (List.filter (fun x => negb (fst (snd x))) l).
Proof.
  induction 1 as [|[i [[|] f]] a l arts Ha _ IH]; [done|..];
    destruct IH as (IH1 & IH2 & IH3);
    destruct a as [s t|s t n]; try contradiction; simpl in Ha |- *.
  - destruct Ha as [-> ->]. rewrite IH1, IH2, IH3. done.
  - destruct Ha as (-> & -> & _). rewrite IH1, IH2, IH3. done.
Qed.

(** The counts [main] logs after a successful run are the number of
    images and the number of PDFs the run handled, provided the output
    directory and the names the run adds (each PDF's folder name, each
    image record's file name) do not carry the markers the summary
    searches for. *)
Theorem main_counts_sources E tags model input_path output_dir prompt w ni np w' :
  main E tags model input_path output_dir prompt w = (Completed ni np, w') ->
  forallb marker_free output_dir = true ->
  forallb (fun '(i, src) => source_clean E i src)
    (stamp_sources (ticks w) (sources E input_path)) = true ->
  ni = length (List.filter fst (sources E input_path)) /\
  np = length (List.filter (fun s => negb (fst s)) (sources E input_path)).
Proof.
  unfold main. intros H Hout Hsrc.
  destruct (check_model_availability model tags); [|discriminate].
  destruct (process_input_path E input_path output_dir prompt w) as [[outs|e] w1] eqn:Hp;
    [|discriminate].
  injection H as Hi Hn _.
  apply run_artifacts in Hp as (arts & -> & HF & _).
  destruct (artifacts_of_sources E _ arts HF) as (C1 & C2 & C3).
  rewrite C1 in Hsrc.
  pose proof (summary_of_artifacts output_dir arts Hout Hsrc) as Hs.
  unfold summary in Hs. injection Hs as Hs1 Hs2.
  rewrite <- Hi, <- Hn, Hs1, Hs2, C2, C3.
  rewrite (stamp_sources_filter _ _ fst).
  by rewrite (stamp_sources_filter _ _ (fun s => negb (fst s))).
Qed.

Lemma main_counts_sources_witness :
  let tags := TagsResponse 200 (Some (JObj [("models", JArr [JObj [("name", JStr "llava")]])])) in
  let w' := snd (main sample_env tags "llava" ["in"] ["out"] "describe" empty_world) in
  main sample_env tags "llava" ["in"] ["out"] "describe" empty_world = (Completed 1 1, w') /\
  forallb marker_free ["out"] = true /\
  forallb (fun '(i, src) => source_clean sample_env i src)
    (stamp_sources (ticks empty_world) (sources sample_env ["in"])) = true /\
  (1 = length (List.filter fst (sources sample_env ["in"])) /\
   1 = length (List.filter (fun s => negb (fst s)) (sources sample_env ["in"]))).
Proof.
  intros tags w'.
  assert (H1 : main sample_env tags "llava" ["in"] ["out"] "describe" empty_world =
               (Completed 1 1, w')) by (vm_compute; reflexivity).
  assert (H2 : forallb marker_free ["out"] = true) by (vm_compute; reflexivity).
  assert (H3 : forallb (fun '(i, src) => source_clean sample_env i src)
                 (stamp_sources (ticks empty_world) (sources sample_env ["in"])) = true)
    by (vm_compute; reflexivity).
  split; [exact H1|]. split; [exact H2|]. split; [exact H3|].
  exact (main_counts_sources sample_env tags "llava" ["in"] ["out"] "describe"
           empty_world 1 1 w' H1 H2 H3).
Defined.

(** How [main] leaves the output side: when the server check in
    [OllamaClient(...)] raises, before the [try], nothing was done (no
    folder, no request, no clock read); otherwise, whether the run
    completes or ends in [sys.exit(1)], no record that existed is gone and
    only paths stamped during the run changed. *)
Theorem main_failure_effects E tags model input_path output_dir prompt w o w' :
  main E tags model input_path output_dir prompt w = (o, w') ->
  match o with
  | Uncaught e => w' = w /\ check_model_availability model tags = InitErr e
  | _ => grows E output_dir w w'
  end.
Proof.
  unfold main. intros H.
  destruct (check_model_availability model tags) as [ws|e].
  - destruct (process_input_path E input_path output_dir prompt w) as [r w1] eqn:Hp.
    apply process_input_path_grows in Hp as [Hg _].
    destruct r; injection H as <- <-; exact Hg.
  - injection H as <- <-. done.
Qed.

Lemma main_failure_effects_witness :
  let w' := snd (main page2_fails_env (TagsResponse 200 (Some (JObj [])))
                   "llava" ["in"] ["out"] "describe" empty_world) in
  main page2_fails_env (TagsResponse 200 (Some (JObj []))) "llava" ["in"] ["out"] "describe"
    empty_world = (Exit1, w') /\
  grows page2_fails_env ["out"] empty_world w'.
Proof.
  intros w'.
  assert (H : main page2_fails_env (TagsResponse 200 (Some (JObj []))) "llava" ["in"] ["out"]
                "describe" empty_world = (Exit1, w')) by (vm_compute; reflexivity).
  split; [exact H|].
  exact (main_failure_effects page2_fails_env _ _ _ _ _ _ _ _ H).
Defined.

(** The upload loop of [app.py] keeps what a single run keeps: across all
    the uploads it processes, successful or not, no record that existed is
    gone and only paths stamped during the loop changed; on success every
    path in [all_output_files] holds a record stamped during the loop. *)
Theorem app_process_grows E paths output_dir prompt w r w' :
  app_process E paths output_dir prompt [] w = (r, w') ->
  grows E output_dir w w' /\
  (forall outs, r = Ok outs -> Forall (recorded E output_dir (ticks w) w') outs).
Proof.
  assert (G : forall acc w1, ticks w <= ticks w1 -> Forall (recorded E output_dir (ticks w) w1) acc ->
            app_process E paths output_dir prompt acc w1 = (r, w') ->
            grows E output_dir w1 w' /\
            (forall outs, r = Ok outs -> Forall (recorded E output_dir (ticks w) w') outs)).
  { induction paths as [|p rest IH]; intros acc w1 Hlo Hacc H; cbn [app_process] in H.
    - injection H as <- <-. split; [apply grows_same_files; [done|lia]|].
      by intros outs [= <-].
    - unfold bind at 1 in H.
      destruct (process_input_path E p output_dir prompt w1) as [r1 w2] eqn:Hp.
      apply process_input_path_grows in Hp as [Hg1 Hr1].
      destruct r1 as [o|e].
      + assert (Hlo2 : ticks w <= ticks w2) by (destruct Hg1; lia).
        apply IH in H as [Hg2 Hr2]; [|done|].
        * split; [by eapply grows_trans|done].
        * apply Forall_app. split.
          -- eapply Forall_impl; [exact Hacc|]. intros q Hq. by eapply recorded_grows.
          -- eapply Forall_impl; [apply Hr1; done|]. intros q [Hs Hk]. split; [|done].
             eapply stamped_widen; [exact Hs|lia|lia].
      + injection H as <- <-. split; [done|discriminate]. }
  intros H. apply (G [] w); [lia|constructor|exact H].
Qed.

Lemma app_process_grows_witness :
  let res := app_process sample_env [["in"; "deck.pdf"]; ["in"; "sub"; "photo.png"]]
               ["out"] "describe" [] empty_world in
  app_process sample_env [["in"; "deck.pdf"]; ["in"; "sub"; "photo.png"]]
    ["out"] "describe" [] empty_world = (fst res, snd res) /\
  grows sample_env ["out"] empty_world (snd res) /\
  (forall outs, fst res = Ok outs ->
     Forall (recorded sample_env ["out"] (ticks empty_world) (snd res)) outs).
Proof.
  intros res.
  assert (H : app_process sample_env [["in"; "deck.pdf"]; ["in"; "sub"; "photo.png"]]
                ["out"] "describe" [] empty_world = (fst res, snd res)) by (vm_compute; reflexivity).
  split; [exact H|].
  exact (app_process_grows sample_env [["in"; "deck.pdf"]; ["in"; "sub"; "photo.png"]]
           ["out"] "describe" empty_world (fst res) (snd res) H).
Defined.

(** [process_image] is all or nothing on the output side: on success it
    read the clock once, sent one POST, and added exactly one record, at
    the returned path, holding that POST's answer; when [generate] fails,
    [process_image] re-raises its error with no record written and no
    clock read, and that error is [FileNotFoundError] exactly when the
    path does not exist. *)
Theorem process_image_atomic E image_path output_dir prompt w r w' :
  process_image E image_path output_dir prompt w = (r, w') ->
  (forall o, r = Ok o ->
     exists d, request_result (http E (calls w) prompt image_path) = Ok d /\
       o = image_output output_dir (Str.stem (name image_path)) (now E (ticks w)) /\
       files w' = <[o := ImageRecord (name image_path) (now E (ticks w)) d]> (files w) /\
       ticks w' = S (ticks w) /\ calls w' = S (calls w)) /\
  (forall e, fst (generate E (kind_of E image_path) (image_mode E image_path) prompt image_path w)
               = Err e ->
     r = Err e /\ files w' = files w /\ ticks w' = ticks w /\
     (e = NotFound <-> kind_of E image_path = None)).
Proof.
  unfold process_image, bind.
  destruct (generate E (kind_of E image_path) (image_mode E image_path) prompt image_path w)
    as [[d|e] w1] eqn:Hg; intros H; cbn [fst].
  - apply generate_ok_inv in Hg as (Hd & Hf & Ht & Hc).
    unfold read_clock, write, ret in H. simpl in H. injection H as <- <-.
    split; [|discriminate].
    intros o [= <-]. exists d. simpl. rewrite Hf, Ht, Hc. auto.
  - injection H as <- <-. split; [discriminate|].
    intros e' [= <-]. pose proof (generate_err_kind _ _ _ _ _ _ _ _ Hg) as Hk.
    apply generate_frame in Hg as [Hf Ht]. auto.
Qed.

Lemma process_image_atomic_witness :
  let res := process_image palette_env ["in"; "sub"; "photo.png"] ["out"] "describe"
               empty_world in
  process_image palette_env ["in"; "sub"; "photo.png"] ["out"] "describe" empty_world =
    (fst res, snd res) /\
  (forall o, fst res = Ok o ->
     exists d, request_result (http palette_env (calls empty_world) "describe"
                                 ["in"; "sub"; "photo.png"]) = Ok d /\
       o = image_output ["out"] (Str.stem (name ["in"; "sub"; "photo.png"]))
             (now palette_env (ticks empty_world)) /\
       files (snd res) = <[o := ImageRecord (name ["in"; "sub"; "photo.png"])
                                  (now palette_env (ticks empty_world)) d]>
                           (files empty_world) /\
       ticks (snd res) = S (ticks empty_world) /\ calls (snd res) = S (calls empty_world)) /\
  (forall e, fst (generate palette_env (kind_of palette_env ["in"; "sub"; "photo.png"])
                   (image_mode palette_env ["in"; "sub"; "photo.png"]) "describe"
                   ["in"; "sub"; "photo.png"] empty_world) = Err e ->
     fst res = Err e /\ files (snd res) = files empty_world /\
     ticks (snd res) = ticks empty_world /\
     (e = NotFound <-> kind_of palette_env ["in"; "sub"; "photo.png"] = None)).
Proof.
  intros res.
  assert (H : process_image palette_env ["in"; "sub"; "photo.png"] ["out"] "describe"
                empty_world = (fst res, snd res)) by (vm_compute; reflexivity).
  split; [exact H|].
  exact (process_image_atomic palette_env ["in"; "sub"; "photo.png"] ["out"] "describe"
           empty_world (fst res) (snd res) H).
Defined.

(** An existing image that Pillow cannot identify, or that it opens in a
    mode its JPEG encoder cannot write (a palette GIF, a PNG with
    alpha), makes [process_image] raise before any request: no POST is
    sent, no record written, no clock read, nothing left on disk. *)
Theorem process_image_unsaveable E image_path output_dir prompt w :
  kind_of E image_path = Some File ->
  match image_mode E image_path with Some m => jpeg_saveable m = false | None => True end ->
  process_image E image_path output_dir prompt w = (Err OtherError, w).
Proof.
  intros Hk Hm. unfold process_image, generate, bind, raise. rewrite Hk.
  destruct (image_mode E image_path) as [m|]; [|done].
  by rewrite Hm.
Qed.

Lemma process_image_unsaveable_witness :
  kind_of palette_env ["in"; "sub"; "photo.png"] = Some File /\
  jpeg_saveable "P" = false /\
  process_image palette_env ["in"; "sub"; "photo.png"] ["out"] "describe" empty_world =
    (Err OtherError, empty_world).
Proof.
  split; [reflexivity|]. split; [reflexivity|].
  apply (process_image_unsaveable palette_env ["in"; "sub"; "photo.png"] ["out"] "describe"
           empty_world); reflexivity.
Defined.

(** Every image [generate] sends to the model leaves its resized copy
    ["<name>_resized.jpg"] next to it on disk, whatever the answer: one
    POST was sent, and the copy's name matches the ["*.jpg"] pattern
    [process_input_path] globs for. *)
Theorem generate_leaves_sidecar E m prompt img w r w' :
  jpeg_saveable m = true ->
  generate E (Some File) (Some m) prompt img w = (r, w') ->
  resized_path img ∈ sidecars w' /\ calls w' = S (calls w) /\
  removelast (resized_path img) = removelast img /\
  Str.ends_with ".jpg" (name (resized_path img)) = true.
Proof.
  intros Hm. unfold generate. rewrite Hm. unfold bind, save_sidecar, post, raise, ret. simpl.
  assert (Hr : removelast (resized_path img) = removelast img /\
               name (resized_path img) = (name img +:+ "_resized") +:+ ".jpg").
  { unfold resized_path, name. rewrite removelast_last, last_snoc. split; [done|].
    simpl. by rewrite <- sapp_assoc. }
  destruct Hr as [Hr Hn]. rewrite Hr, Hn, ends_with_app.
  destruct (request_result _); simpl; intros H; injection H as _ <-; simpl;
    (split; [set_solver|auto]).
Qed.

Lemma generate_leaves_sidecar_witness :
  let res := generate sample_env (Some File) (Some "RGB") "describe" ["in"; "sub"; "photo.png"]
               empty_world in
  jpeg_saveable "RGB" = true /\
  generate sample_env (Some File) (Some "RGB") "describe" ["in"; "sub"; "photo.png"]
    empty_world = (fst res, snd res) /\
  resized_path ["in"; "sub"; "photo.png"] ∈ sidecars (snd res) /\
  calls (snd res) = S (calls empty_world) /\
  removelast (resized_path ["in"; "sub"; "photo.png"]) = removelast ["in"; "sub"; "photo.png"] /\
  Str.ends_with ".jpg" (name (resized_path ["in"; "sub"; "photo.png"])) = true.
Proof.
  intros res.
  assert (H : generate sample_env (Some File) (Some "RGB") "describe" ["in"; "sub"; "photo.png"]
                empty_world = (fst res, snd res)) by (vm_compute; reflexivity).
  split; [reflexivity|]. split; [exact H|].
  exact (generate_leaves_sidecar sample_env "RGB" "describe" ["in"; "sub"; "photo.png"]
           empty_world (fst res) (snd res) eq_refl H).
Defined.

(** When pdf2image fails on a PDF, [process_pdf] raises with no record
    written and no request sent, but the clock was read and the output
    folder ["<stem>_<timestamp>"] was already created: an empty folder
    is left behind. *)
Theorem process_pdf_rasterization_failure E pdf_path output_dir prompt w :
  rasterize E pdf_path = None ->
  process_pdf E pdf_path output_dir prompt w =
  (Err RasterizationError,
   {| files := files w;
      dirs := {[pdf_output_dir output_dir (Str.stem (name pdf_path)) (now E (ticks w))]} ∪ dirs w;
      ticks := S (ticks w); calls := calls w; sidecars := sidecars w |}).
Proof.
  intros Hn. unfold process_pdf, bind, read_clock, mkdir, in_tempdir, convert_from_path. simpl.
  by rewrite Hn.
Qed.

Lemma process_pdf_rasterization_failure_witness :
  rasterize no_pages_env ["in"; "deck.pdf"] = None /\
  process_pdf no_pages_env ["in"; "deck.pdf"] ["out"] "describe" empty_world =
  (Err RasterizationError,
   {| files := files empty_world;
      dirs := {[pdf_output_dir ["out"] (Str.stem (name ["in"; "deck.pdf"]))
                  (now no_pages_env (ticks empty_world))]} ∪ dirs empty_world;
      ticks := S (ticks empty_world); calls := calls empty_world; sidecars := sidecars empty_world |}).
Proof.
  assert (H : rasterize no_pages_env ["in"; "deck.pdf"] = None) by reflexivity.
  split; [exact H|].
  exact (process_pdf_rasterization_failure no_pages_env _ ["out"] "describe" empty_world H).
Defined.

(** A single input file whose lower-cased suffix is neither [.pdf] nor
    an image extension is skipped, not an error: the run succeeds with
    no output, writes no record, sends no request and reads no clock;
    only the output directory is created. *)
Theorem unsupported_file_skipped E input_path output_dir prompt w :
  kind_of E input_path = Some File ->
  String.eqb (Str.lower (Str.suffix (name input_path))) ".pdf" = false ->
  is_image_suffix (Str.lower (Str.suffix (name input_path))) = false ->
  process_input_path E input_path output_dir prompt w =
  (Ok [], {| files := files w; dirs := {[output_dir]} ∪ dirs w;
             ticks := ticks w; calls := calls w; sidecars := sidecars w |}).
Proof.
  intros Hk Hp Hi. unfold process_input_path, bind, mkdir. simpl.
  rewrite Hk, Hp, Hi. reflexivity.
Qed.

Lemma unsupported_file_skipped_witness :
  kind_of unsupported_env ["in"; "notes.txt"] = Some File /\
  String.eqb (Str.lower (Str.suffix (name ["in"; "notes.txt"]))) ".pdf" = false /\
  is_image_suffix (Str.lower (Str.suffix (name ["in"; "notes.txt"]))) = false /\
  process_input_path unsupported_env ["in"; "notes.txt"] ["out"] "describe" empty_world =
  (Ok [], {| files := files empty_world; dirs := {[["out"]]} ∪ dirs empty_world;
             ticks := ticks empty_world; calls := calls empty_world; sidecars := sidecars empty_world |}).
Proof.
  assert (H1 : kind_of unsupported_env ["in"; "notes.txt"] = Some File) by reflexivity.
  assert (H2 : String.eqb (Str.lower (Str.suffix (name ["in"; "notes.txt"]))) ".pdf" = false)
    by reflexivity.
  assert (H3 : is_image_suffix (Str.lower (Str.suffix (name ["in"; "notes.txt"]))) = false)
    by reflexivity.
  split; [exact H1|]. split; [exact H2|]. split; [exact H3|].
  exact (unsupported_file_skipped unsupported_env _ ["out"] "describe" empty_world H1 H2 H3).
Defined.

(* ------------------------------------------------------------------ *)
(** ** [app.py]: saving the uploads and the preview lookup *)

(** Saving the uploads: [temp_file_paths] gets one path per upload, in
    upload order and duplicates included; the file at
    [temp_dir / nm] holds the bytes of the last upload named [nm] (an
    earlier one of the same name is overwritten), and no other file of
    the disk changes. *)
Theorem save_uploads_contents temp_dir uploads disk :
  snd (save_uploads temp_dir uploads disk) = map (fun u => temp_dir ++ [fst u]) uploads /\
  (forall nm, fst (save_uploads temp_dir uploads disk) !! (temp_dir ++ [nm]) =
     match last_upload nm uploads with
     | Some d => Some d
     | None => disk !! (temp_dir ++ [nm])
     end) /\
  (forall p, (forall nm, p <> temp_dir ++ [nm]) ->
     fst (save_uploads temp_dir uploads disk) !! p = disk !! p).
Proof.
  revert disk. induction uploads as [|[n data] rest IH]; intros disk.
  - split; [done|]. split; [by intros nm|done].
  - cbn [save_uploads].
    destruct (IH (<[temp_dir ++ [n] := data]> disk)) as (H1 & H2 & H3).
    destruct (save_uploads temp_dir rest (<[temp_dir ++ [n] := data]> disk)) as [disk' ps].
    simpl in H1, H2, H3 |- *. split; [by rewrite H1|]. split.
    + intros nm. rewrite H2. destruct (last_upload nm rest) as [d|]; [done|].
      destruct (String.eqb_spec n nm) as [->|Hne].
      * apply lookup_insert_eq.
      * rewrite lookup_insert_ne; [done|]. intros Heq. apply app_singleton_inj in Heq.
        congruence.
    + intros p Hp. rewrite H3 by done. rewrite lookup_insert_ne; [done|].
      intros Heq. by apply (Hp n).
Qed.

Lemma prefix_split n h :
  Strings.String.prefix n h = true -> exists y, h = n +:+ y.
Proof.
  revert h. induction n as [|x n IH]; intros [|y h] H.
  - by exists "".
  - by exists (String y h).
  - discriminate.
  - simpl in H. destruct (ascii_dec x y) as [->|]; [|discriminate].
    apply IH in H as [z ->]. by exists z.
Qed.

Lemma contains_split n h :
  contains n h = true -> exists x y, h = x +:+ n +:+ y.
Proof.
  induction h as [|c h IH]; intros H.
  - destruct n as [|x n]; [by exists "", ""|discriminate].
  - cbn [contains] in H. apply orb_true_iff in H as [H|H].
    + apply prefix_split in H as [y Hy]. exists "", y. exact Hy.
    + apply IH in H as (x & y & ->). by exists (String c x), y.
Qed.

Lemma contains_trans a b c :
  contains a b = true -> contains b c = true -> contains a c = true.
Proof.
  intros Hab Hbc.
  apply contains_split in Hab as (x & y & ->).
  apply contains_split in Hbc as (u & v & ->).
  apply contains_app_r, contains_app_l, contains_app_r, contains_self_app.
Qed.

(** The image preview of [app.py] takes the first image output whose
    path contains the upload's stem. Every image output contains
    ["_description_"], so an upload whose stem occurs inside it (["d"],
    ["desc"], ["script"], ["ion"], ...) is shown the first image record
    of the batch, whichever image that record describes. *)
Theorem preview_generic_stem stm output_files :
  contains stm "_description_" = true ->
  find_output stm (image_outputs output_files) = head (image_outputs output_files).
Proof.
  intros Hs.
  assert (Hin : forall f, In f (image_outputs output_files) ->
                  contains "_description_" (str_path f) = true).
  { intros f Hf. unfold image_outputs in Hf. apply filter_In in Hf as [_ Hf].
    by apply andb_true_iff in Hf as [Hf _]. }
  destruct (image_outputs output_files) as [|f r]; [done|].
  cbn [find_output head].
  rewrite (contains_trans _ _ _ Hs (Hin f (or_introl eq_refl))). done.
Qed.

Lemma preview_generic_stem_witness :
  let outs := [image_output ["out"] "cat" "20240615_123000";
               image_output ["out"] "desc" "20240615_123001"] in
  contains "desc" "_description_" = true /\
  find_output "desc" (image_outputs outs) = head (image_outputs outs) /\
  head (image_outputs outs) = Some (image_output ["out"] "cat" "20240615_123000").
Proof.
  intros outs.
  assert (H : contains "desc" "_description_" = true) by reflexivity.
  split; [exact H|]. split; [exact (preview_generic_stem "desc" outs H)|].
  vm_compute. reflexivity.
Defined.
